(** * audiomenu: a shallow embedding of [audiomenu.py]

    The script lists the PipeWire audio devices ([pw-dump]), shows the inputs
    or the outputs in a dmenu-like picker and hands the chosen id to
    [wpctl set-default].

    The development follows the script top to bottom:
    - [pyval]: the Python values [json.loads] builds, with subscripting and
      comparison against a string literal;
    - [audio_device_from_pw_node]: the parser of one node record;
    - a small monad [M] for the code that starts processes: it threads the
      log of the [subprocess.run] calls and carries Python's exceptions;
    - [get_audio_devices], [get_inputs], [get_outputs];
    - [find_menuprog], the [click] group callback and the two subcommands;
    - [fetch_volume] and [populate_volume], over a store of device objects.

    Strings are byte strings holding UTF-8 text, so splitting on the ASCII
    space agrees with Python's splitting on code points. *)

From Stdlib Require Import ZArith String Ascii List.
From Stdlib Require Import DecimalString DecimalPos DecimalZ.
From Stdlib Require Floats.SpecFloat.
From stdpp Require Import functions gmap strings list fin_maps.

Open Scope string_scope.
Open Scope list_scope.

(** ** Python values and exceptions *)

(** What [json.loads] can return.  A JSON object becomes a [dict] with string
    keys; the script only ever looks keys up, so a finite map is enough. *)
#[warnings="-register-all"]
Inductive pyval : Type :=
  | PNone
  | PBool (b : bool)
  | PInt (z : Z)
  | PFloat (f : SpecFloat.spec_float)
  | PStr (s : string)
  | PList (l : list pyval)
  | PDict (m : gmap string pyval).

(** The exception classes that occur in the script and in the library calls
    it makes.  [except C] in the script always names one of these classes
    exactly, and none of them is a subclass of another one that is caught. *)
Inductive exn : Type :=
  | KeyError
  | TypeError
  | IndexError
  | ValueError
  | JSONDecodeError
  | UnicodeDecodeError
  | RecursionError
  | OSError
  | CalledProcessError
  | UsageError.

Definition exn_eqb (a b : exn) : bool :=
  match a, b with
  | KeyError, KeyError | TypeError, TypeError | IndexError, IndexError
  | ValueError, ValueError | JSONDecodeError, JSONDecodeError
  | UnicodeDecodeError, UnicodeDecodeError | RecursionError, RecursionError
  | OSError, OSError | CalledProcessError, CalledProcessError
  | UsageError, UsageError => true
  | _, _ => false
  end.

Inductive result (A : Type) : Type :=
  | Ok (a : A)
  | Raise (e : exn).
Arguments Ok {A} a.
Arguments Raise {A} e.

#[global] Instance result_ret : MRet result := fun A a => Ok a.
#[global] Instance result_bind : MBind result := fun A B f r =>
  match r with
  | Ok a => f a
  | Raise e => Raise e
  end.

(** [try: body except cls: handler], for code without side effects. *)
Definition try_except {A} (body : result A) (cls : exn) (handler : result A)
  : result A :=
  match body with
  | Ok a => Ok a
  | Raise e => if exn_eqb e cls then handler else Raise e
  end.

(** [v[key]] with a string key: a [dict] raises [KeyError] on a missing key,
    every other value raises [TypeError] (a list or a string wants an integer
    index, the rest is not subscriptable). *)
Definition getitem (v : pyval) (key : string) : result pyval :=
  match v with
  | PDict m =>
      match m !! key with
      | Some x => Ok x
      | None => Raise KeyError
      end
  | _ => Raise TypeError
  end.

(** [v == lit] for a string literal [lit]: only the equal string is equal. *)
Definition py_eq_str (v : pyval) (lit : string) : bool :=
  match v with
  | PStr s => String.eqb s lit
  | _ => false
  end.

(** [xs[0]] on a list. *)
Definition getitem0 {A} (xs : list A) : result A :=
  match xs with
  | x :: _ => Ok x
  | [] => Raise IndexError
  end.

(** ** The data model *)

Inductive Direction : Type := INPUT | OUTPUT.

Definition Direction_eqb (a b : Direction) : bool :=
  match a, b with
  | INPUT, INPUT | OUTPUT, OUTPUT => true
  | _, _ => false
  end.

(** The dataclass.  Its annotations ([id: int], [name: str]) are not checked
    when an instance is built, so both fields hold whatever the dump had. *)
Module AudioDevice.
Record t : Type := mk {
  id : pyval;
  name : pyval;
  direction : Direction;
  muted : option bool;
  volume : option SpecFloat.spec_float
}.
End AudioDevice.

(** ** The device parser *)

Definition NODE_TYPE : string := "PipeWire:Interface:Node".

(** The [match props["media.class"]] statement: the direction it assigns, or
    [None] where it returns from the function. *)
Definition match_media_class (cls : pyval) : option Direction :=
  if py_eq_str cls "Audio/Sink" then Some OUTPUT
  else if py_eq_str cls "Audio/Source" then Some INPUT
  else None.

Definition audio_device_from_pw_node (node : pyval)
  : result (option AudioDevice.t) :=
  try_except
    (ty ← getitem node "type";
     if negb (py_eq_str ty NODE_TYPE) then mret None
     else
       info ← getitem node "info";
       props ← getitem info "props";
       id ← getitem props "object.id";
       name ← getitem props "node.description";
       cls ← getitem props "media.class";
       match match_media_class cls with
       | Some direction =>
           mret (Some (AudioDevice.mk id name direction None None))
       | None => mret None
       end)
    KeyError
    (mret None).

(** ** Strings *)

(** [s.split(sep)] for a separator of one character: every occurrence of the
    separator ends a field, so the result is never empty. *)
Fixpoint str_split (sep : ascii) (s : string) : list string :=
  match s with
  | EmptyString => [EmptyString]
  | String c rest =>
      if Ascii.eqb c sep then EmptyString :: str_split sep rest
      else
        match str_split sep rest with
        | field :: fields => String c field :: fields
        | [] => [String c EmptyString]
        end
  end.

(** [sep in s] *)
Fixpoint str_contains (sep : ascii) (s : string) : bool :=
  match s with
  | EmptyString => false
  | String c rest => Ascii.eqb c sep || str_contains sep rest
  end.

Definition SPACE : ascii := " "%char.
Definition NEWLINE : string := String (ascii_of_nat 10) EmptyString.

Definition LINE_FEED : ascii := ascii_of_nat 10.

(** [s.removeprefix(prefix)]: the rest of [s] behind [prefix] when [s]
    starts with it, [s] itself when it does not. *)
Fixpoint str_after_prefix (prefix s : string) : option string :=
  match prefix, s with
  | EmptyString, _ => Some s
  | String p prefix', String c s' =>
      if Ascii.eqb p c then str_after_prefix prefix' s' else None
  | String _ _, EmptyString => None
  end.

Definition str_removeprefix (prefix s : string) : string :=
  match str_after_prefix prefix s with
  | Some rest => rest
  | None => s
  end.

(** [str(z)] for an [int]. *)
Definition str_int (z : Z) : string := NilZero.string_of_int (Z.to_int z).

(** ** The host: operating system and Python runtime

    What the script calls but does not define is a parameter of the model. *)

(** One call of [subprocess.run]: the argument vector, the [input=] text
    ([None] where the call passes none) and whether the call is made with
    [capture_output=True].  Without it the child writes to the terminal of
    the script. *)
Record Call : Type := mkRun {
  args : list string;
  input : option string;
  capture_output : bool
}.

(** A call that captures the output of its child. *)
Definition mkCall (argv : list string) (stdin : option string) : Call :=
  mkRun argv stdin true.

(** Why [json.loads] fails on the bytes it is given: they are no JSON text
    ([JSONDecodeError]), not text in the encoding they announce
    ([UnicodeDecodeError]), nested too deep ([RecursionError]), or hold a
    number with more digits than [int] takes ([ValueError]). *)
Inductive decode_error : Type :=
  | NotJSON
  | NotText
  | TooDeep
  | NumberTooLong.

Definition decode_exn (why : decode_error) : exn :=
  match why with
  | NotJSON => JSONDecodeError
  | NotText => UnicodeDecodeError
  | TooDeep => RecursionError
  | NumberTooLong => ValueError
  end.

(** What the operating system answers: the child ran and exited with a status
    and a standard output (as text), or no child could be started. *)
Inductive Outcome : Type :=
  | Exited (returncode : Z) (stdout : string)
  | NotStarted.

Record CompletedProcess : Type := mkCompleted {
  cp_returncode : Z;
  cp_stdout : string
}.

Record Host : Type := mkHost {
  (** the effect of starting a process *)
  spawn : Call -> Outcome;
  (** [shutil.which(name) is not None] *)
  which : string -> bool;
  (** [json.loads]; [None] where it raises *)
  loads : string -> option pyval;
  (** why it raises there *)
  loads_error : string -> decode_error;
  (** [shlex.split]; [None] where it raises [ValueError] *)
  shlex_split : string -> option (list string);
  (** [str] of a float, a list or a dict *)
  repr : pyval -> string;
  (** what the child of a call writes to its standard error *)
  stderr_text : Call -> string
}.

(** ** Code with effects

    A computation maps the log of the [run] calls made so far to its outcome
    and the extended log.  An exception keeps the log: a call that was made
    stays made. *)
Definition M (A : Type) : Type := list Call -> result A * list Call.

#[global] Instance M_ret : MRet M := fun A a log => (Ok a, log).
#[global] Instance M_bind : MBind M := fun A B f m log =>
  match m log with
  | (Ok a, log') => f a log'
  | (Raise e, log') => (Raise e, log')
  end.

Definition lift {A} (r : result A) : M A := fun log => (r, log).

Definition try_exceptM {A} (body : M A) (cls : exn) (handler : M A) : M A :=
  fun log =>
    match body log with
    | (Ok a, log') => (Ok a, log')
    | (Raise e, log') =>
        if exn_eqb e cls then handler log' else (Raise e, log')
    end.

(** [str(v)], as an f-string field without a format spec renders [v]. *)
Definition py_str (host : Host) (v : pyval) : string :=
  match v with
  | PNone => "None"
  | PBool true => "True"
  | PBool false => "False"
  | PInt z => str_int z
  | PStr s => s
  | _ => repr host v
  end.

(** [for x in v]: the items of a list, the keys of a dict, the characters of
    a string; anything else is not iterable.  (The order of the keys is the
    map's, not the order of insertion; a key is a string either way.) *)
Definition py_iter (v : pyval) : result (list pyval) :=
  match v with
  | PList l => Ok l
  | PDict m => Ok ((fun kv => PStr (fst kv)) <$> map_to_list m)
  | PStr s => Ok ((fun c => PStr (String c EmptyString)) <$> list_ascii_of_string s)
  | _ => Raise TypeError
  end.

Section Script.
Context (host : Host).

(** [run(args, input=input, capture_output=True, check=True)].  An empty
    argument vector has no program to start ([IndexError]); a child that
    exits with a status other than 0 is a [CalledProcessError]. *)
Definition run (argv : list string) (stdin : option string)
  : M CompletedProcess :=
  fun log =>
    let call := mkCall argv stdin in
    (match argv with
     | [] => Raise IndexError
     | _ :: _ =>
         match spawn host call with
         | NotStarted => Raise OSError
         | Exited rc out =>
             if (rc =? 0)%Z then Ok (mkCompleted rc out)
             else Raise CalledProcessError
         end
     end,
     (log ++ [call])%list).

(** [run(args, check=True)]: no input and nothing captured, so the child
    has the terminal; the script drops the value that comes back. *)
Definition run_inherit (argv : list string) : M unit :=
  fun log =>
    let call := mkRun argv None false in
    (match argv with
     | [] => Raise IndexError
     | _ :: _ =>
         match spawn host call with
         | NotStarted => Raise OSError
         | Exited rc _ =>
             if (rc =? 0)%Z then Ok tt
             else Raise CalledProcessError
         end
     end,
     (log ++ [call])%list).

(** ** The device lister *)

(** The list comprehension of [get_audio_devices]. *)
Fixpoint parse_nodes (dump : list pyval) : result (list AudioDevice.t) :=
  match dump with
  | [] => mret []
  | node :: rest =>
      dev ← audio_device_from_pw_node node;
      devs ← parse_nodes rest;
      mret (match dev with
            | Some d => d :: devs
            | None => devs
            end)
  end.

Definition json_loads (text : string) : result pyval :=
  match loads host text with
  | Some v => Ok v
  | None => Raise (decode_exn (loads_error host text))
  end.

Definition get_audio_devices : M (list AudioDevice.t) :=
  output ← run ["pw-dump"] None;
  dump ← lift (json_loads (cp_stdout output));
  nodes ← lift (py_iter dump);
  lift (parse_nodes nodes).

Definition is_input (dev : AudioDevice.t) : bool :=
  Direction_eqb (AudioDevice.direction dev) INPUT.

Definition is_output (dev : AudioDevice.t) : bool :=
  Direction_eqb (AudioDevice.direction dev) OUTPUT.

Definition get_inputs : M (list AudioDevice.t) :=
  devs ← get_audio_devices;
  mret (List.filter is_input devs).

Definition get_outputs : M (list AudioDevice.t) :=
  devs ← get_audio_devices;
  mret (List.filter is_output devs).

(** ** Menu-program resolution *)

Definition MENU_CANDIDATES : list string :=
  ["dmenu"; "dmenu-wl"; "rofi -dmenu"; "fuzzel --dmenu"].

(** The loop of [find_menuprog] over the candidates still to try; falling
    off its end is Python's implicit [return None]. *)
Fixpoint find_menuprog_from (progs : list string) : result (option string) :=
  match progs with
  | [] => mret None
  | prog :: rest =>
      exe ← getitem0 (str_split SPACE prog);
      if which host exe then mret (Some prog)
      else find_menuprog_from rest
  end.

Definition find_menuprog : result (option string) :=
  find_menuprog_from MENU_CANDIDATES.

(** The callback of the [click] group: the value it stores under
    [ctx.obj["MENUPROG"]]. *)
Definition audiomenu (menu : option string) : result (list string) :=
  match menu with
  | None => Raise UsageError
  | Some m =>
      match shlex_split host m with
      | Some argv => Ok argv
      | None => Raise ValueError
      end
  end.

(** ** The subcommands *)

(** [f"{dev.id} {dev.name}"] *)
Definition menu_line (dev : AudioDevice.t) : string :=
  py_str host (AudioDevice.id dev) +:+ " " +:+ py_str host (AudioDevice.name dev).

(** ["\n".join(f"{dev.id} {dev.name}" for dev in devs)] *)
Definition menu_text (devs : list AudioDevice.t) : string :=
  String.concat NEWLINE (menu_line <$> devs).

Definition wpctl_set_default (id : string) : list string :=
  ["wpctl"; "set-default"; id].

(** The call that sets the default: [run(["wpctl", "set-default", id],
    check=True)]. *)
Definition set_default_call (id : string) : Call :=
  mkRun (wpctl_set_default id) None false.

(** The statements both subcommands run once the menu text is there. *)
Definition prompt_and_set (menu : list string) (sources : string) : M unit :=
  output ← run menu (Some sources);
  id ← lift (getitem0 (str_split SPACE (cp_stdout output)));
  _ ← run_inherit (wpctl_set_default id);
  mret tt.

(** [select_source] lists the devices inside its [try] block. *)
Definition select_source (menu : list string) : M unit :=
  try_exceptM
    (devs ← get_inputs;
     prompt_and_set menu (menu_text devs))
    CalledProcessError
    (mret tt).

(** [select_sink] lists them before it. *)
Definition select_sink (menu : list string) : M unit :=
  devs ← get_outputs;
  try_exceptM
    (prompt_and_set menu (menu_text devs))
    CalledProcessError
    (mret tt).

(** The [try] block as [select_sink] has it, which [select_source] reaches
    once its listing has returned. *)
Definition guarded_prompt (menu : list string) (text : string) : M unit :=
  try_exceptM (prompt_and_set menu text) CalledProcessError (mret tt).

(** ** The command line *)

Inductive Subcommand : Type := SelectSource | SelectSink.

(** [--menu] defaults to the callable [find_menuprog], which [click] calls
    when the option is not given. *)
Definition resolve_menu (menu_option : option string) : result (option string) :=
  match menu_option with
  | Some m => mret (Some m)
  | None => find_menuprog
  end.

Definition subcommand (cmd : Subcommand) (menuprog : list string) : M unit :=
  match cmd with
  | SelectSource => select_source menuprog
  | SelectSink => select_sink menuprog
  end.

(** The listing a subcommand shows. *)
Definition listing (cmd : Subcommand) : M (list AudioDevice.t) :=
  match cmd with
  | SelectSource => get_inputs
  | SelectSink => get_outputs
  end.

(** What happens before the subcommand: the option is resolved and the
    group callback runs. *)
Definition startup (menu_option : option string) : result (list string) :=
  menu ← resolve_menu menu_option;
  audiomenu menu.

Definition main (menu_option : option string) (cmd : Subcommand) : M unit :=
  menuprog ← lift (startup menu_option);
  subcommand cmd menuprog.

End Script.

(** ** The volume of a device

    [fetch_volume] changes the object it is called on, and [populate_volume]
    walks a list of objects, in which one object may occur more than once.
    Objects are therefore named by references into a store; a method takes
    the state of its object and gives back the new state. *)

(** What can leave [fetch_volume]: an exception of a library call, or the
    failed [assert]. *)
Inductive fetch_exn : Type :=
  | Library (e : exn)
  | AssertionError.

Inductive fetch_result : Type :=
  | Fetched
  | FetchRaised (e : fetch_exn).

(** [self.muted = value] and [self.volume = value] *)
Definition set_muted (self : AudioDevice.t) (value : option bool) : AudioDevice.t :=
  AudioDevice.mk (AudioDevice.id self) (AudioDevice.name self)
    (AudioDevice.direction self) value (AudioDevice.volume self).

Definition set_volume (self : AudioDevice.t) (value : option SpecFloat.spec_float)
  : AudioDevice.t :=
  AudioDevice.mk (AudioDevice.id self) (AudioDevice.name self)
    (AudioDevice.direction self) (AudioDevice.muted self) value.

Section Volume.
Context (host : Host).
(** [float(text)]; [None] where it raises [ValueError] *)
Context (py_float : string -> option SpecFloat.spec_float).

Definition wpctl_get_volume (self : AudioDevice.t) : list string :=
  ["wpctl"; "get-volume"; py_str host (AudioDevice.id self)].

(** The call [fetch_volume] makes for an object. *)
Definition get_volume_call (self : AudioDevice.t) : Call :=
  mkCall (wpctl_get_volume self) None.

(** The [match] statement on the fields of the reading.  [muted] is assigned
    before [float] is called, so a number that does not parse leaves the
    object with the new [muted] and the old [volume]. *)
Definition store_reading (self : AudioDevice.t) (fields : list string)
  : fetch_result * AudioDevice.t :=
  match fields with
  | [volume] =>
      let self := set_muted self (Some false) in
      match py_float volume with
      | Some level => (Fetched, set_volume self (Some level))
      | None => (FetchRaised (Library ValueError), self)
      end
  | [volume; mute] =>
      if String.eqb mute "[MUTED]" then
        let self := set_muted self (Some true) in
        match py_float volume with
        | Some level => (Fetched, set_volume self (Some level))
        | None => (FetchRaised (Library ValueError), self)
        end
      else (FetchRaised AssertionError, self)
  | _ => (FetchRaised (Library ValueError), self)
  end.

Definition fetch_volume (self : AudioDevice.t) (log : list Call)
  : fetch_result * AudioDevice.t * list Call :=
  match AudioDevice.volume self, AudioDevice.muted self with
  | Some _, Some _ => (Fetched, self, log)
  | _, _ =>
      match run host (wpctl_get_volume self) None log with
      | (Raise e, log') => (FetchRaised (Library e), self, log')
      | (Ok output, log') =>
          let reading := str_removeprefix "Volume: " (cp_stdout output) in
          (store_reading self (str_split SPACE reading), log')
      end
  end.

(** [populate_volume] over the references of the list; the loop ends at the
    first exception. *)
Fixpoint populate_volume (devices : list nat) (objects : nat -> AudioDevice.t)
    (log : list Call) : fetch_result * (nat -> AudioDevice.t) * list Call :=
  match devices with
  | [] => (Fetched, objects, log)
  | dev :: rest =>
      match fetch_volume (objects dev) log with
      | (Fetched, self, log') => populate_volume rest (<[dev := self]> objects) log'
      | (FetchRaised e, self, log') => (FetchRaised e, <[dev := self]> objects, log')
      end
  end.

End Volume.

(** Both readings are there: nothing is left for [fetch_volume] to do. *)
Definition has_volume (dev : AudioDevice.t) : bool :=
  match AudioDevice.volume dev, AudioDevice.muted dev with
  | Some _, Some _ => true
  | _, _ => false
  end.

(** How the process ends: [click] reports a [UsageError] and exits with
    status 2; any other exception leaves the interpreter with a traceback and
    status 1. *)
Definition exit_status (r : result unit) : Z :=
  match r with
  | Ok _ => 0
  | Raise UsageError => 2
  | Raise _ => 1
  end.

(** Whether the script itself reports an error on the terminal: the usage
    message of [click] or the traceback of the interpreter.  What the
    children write there is [terminal]. *)
Definition error_shown (r : result unit) : bool :=
  match r with
  | Ok _ => false
  | Raise _ => true
  end.

(** What the child of a call writes to the terminal: nothing when its output
    is captured or when it was not started, else its standard output and its
    standard error. *)
Definition child_text (host : Host) (call : Call) : string :=
  if capture_output call then ""
  else
    match args call with
    | [] => ""
    | _ :: _ =>
        match spawn host call with
        | Exited _ out => out +:+ stderr_text host call
        | NotStarted => ""
        end
    end.

(** What the children of the calls of a log have written to the terminal. *)
Fixpoint terminal (host : Host) (log : list Call) : string :=
  match log with
  | [] => ""
  | call :: rest => child_text host call +:+ terminal host rest
  end.

(** What a node contributes to the listing when the parser returns. *)
Definition parsed (node : pyval) : option AudioDevice.t :=
  match audio_device_from_pw_node node with
  | Ok dev => dev
  | Raise _ => None
  end.

(** ** Sample records and hosts *)

Definition node_record (props : gmap string pyval) : pyval :=
  PDict (<["type" := PStr NODE_TYPE]>
         (<["info" := PDict (<["props" := PDict props]> ∅)]> ∅)).

Definition device_props (id name cls : pyval) : gmap string pyval :=
  <["object.id" := id]>
    (<["node.description" := name]> (<["media.class" := cls]> ∅)).

(** The record of the scenario in the specification. *)
Definition headset_mic : pyval :=
  node_record (device_props (PInt 42) (PStr "Headset Mic") (PStr "Audio/Source")).

Definition speakers : pyval :=
  node_record (device_props (PInt 57) (PStr "Built-in Speakers") (PStr "Audio/Sink")).

Definition video_camera : pyval :=
  node_record (device_props (PInt 63) (PStr "Webcam") (PStr "Video/Source")).

(** An object of the graph that is not a node. *)
Definition port_record : gmap string pyval :=
  <["type" := PStr "PipeWire:Interface:Port"]> (<["id" := PInt 70]> ∅).

(** A node without a description. *)
Definition nameless_record : gmap string pyval :=
  <["type" := PStr NODE_TYPE]>
    (<["info" := PDict (<["props" := PDict
         (<["object.id" := PInt 42]> (<["media.class" := PStr "Audio/Source"]> ∅))]> ∅)]> ∅).

(** A node whose id is a list, not a number. *)
Definition list_id_node : pyval :=
  node_record (device_props (PList [PInt 42]) (PStr "Headset Mic") (PStr "Audio/Source")).

(** A node whose media class is a number. *)
Definition numeric_class_node : pyval :=
  node_record (device_props (PInt 42) (PStr "Headset Mic") (PInt 7)).

(** A node whose [info] is a number, not a mapping. *)
Definition scalar_info_node : pyval :=
  PDict (<["type" := PStr NODE_TYPE]> (<["info" := PInt 5]> ∅)).

Definition same_args (xs ys : list string) : bool :=
  bool_decide (xs = ys).

(** A host described by the answers of its three programs.  The dump decodes
    to [dump] whatever its text; the picker is [dmenu]. *)
Definition sample_host (dump : option pyval) (pw_dump dmenu wpctl : Outcome)
    (found : string -> bool) : Host :=
  {| spawn := fun call =>
       if same_args (args call) ["pw-dump"] then pw_dump
       else if same_args (args call) ["dmenu"] then dmenu
       else match args call with
            | "wpctl" :: _ => wpctl
            | _ => NotStarted
            end;
     which := found;
     loads := fun _ => dump;
     loads_error := fun _ => NotJSON;
     shlex_split := fun s => Some (str_split SPACE s);
     repr := fun _ => "";
     stderr_text := fun _ => "" |}.

Definition two_devices : pyval := PList [headset_mic; PDict port_record; speakers].

(** The dump fails. *)
Definition host_dump_fails : Host :=
  sample_host None (Exited 1 "") (Exited 0 "") (Exited 0 "") (fun _ => true).

(** The user leaves the picker without choosing. *)
Definition host_cancel : Host :=
  sample_host (Some two_devices) (Exited 0 "[...]") (Exited 1 "") (Exited 0 "")
    (fun _ => true).

(** The user chooses the microphone and [wpctl] refuses. *)
Definition host_setter_fails : Host :=
  sample_host (Some two_devices) (Exited 0 "[...]")
    (Exited 0 ("42 Headset Mic" +:+ NEWLINE)) (Exited 1 "") (fun _ => true).

(** The same, and [wpctl] writes a message to its standard error. *)
Definition WPCTL_COMPLAINT : string := "Object '42' not found" +:+ NEWLINE.

Definition host_setter_complains : Host :=
  {| spawn := spawn host_setter_fails;
     which := which host_setter_fails;
     loads := loads host_setter_fails;
     loads_error := loads_error host_setter_fails;
     shlex_split := shlex_split host_setter_fails;
     repr := repr host_setter_fails;
     stderr_text := fun _ => WPCTL_COMPLAINT |}.

(** The picker prints a line that does not start with an id. *)
Definition host_odd_choice : Host :=
  sample_host (Some two_devices) (Exited 0 "[...]")
    (Exited 0 ("Headset Mic" +:+ NEWLINE)) (Exited 1 "") (fun _ => true).

(** Nothing to list, and no picker installed. *)
Definition host_bare : Host :=
  sample_host (Some (PList [])) (Exited 0 "[]") (Exited 1 "") (Exited 0 "")
    (fun _ => false).

(** The user chooses the microphone and [wpctl] accepts. *)
Definition host_chosen : Host :=
  sample_host (Some two_devices) (Exited 0 "[...]")
    (Exited 0 ("42 Headset Mic" +:+ NEWLINE)) (Exited 0 "") (fun _ => true).

(** No [dmenu] to start. *)
Definition host_no_picker : Host :=
  sample_host (Some two_devices) (Exited 0 "[...]") NotStarted (Exited 0 "")
    (fun _ => false).

(** The user chooses the microphone and there is no [wpctl] to start. *)
Definition host_no_wpctl : Host :=
  sample_host (Some two_devices) (Exited 0 "[...]")
    (Exited 0 ("42 Headset Mic" +:+ NEWLINE)) NotStarted (fun _ => true).

(** The devices of [two_devices] and the calls the sample runs make. *)
Definition mic_device : AudioDevice.t :=
  AudioDevice.mk (PInt 42) (PStr "Headset Mic") INPUT None None.

Definition speaker_device : AudioDevice.t :=
  AudioDevice.mk (PInt 57) (PStr "Built-in Speakers") OUTPUT None None.

Definition DUMP_CALL : Call := mkCall ["pw-dump"] None.

Definition DMENU_MIC_CALL : Call := mkCall ["dmenu"] (Some "42 Headset Mic").
Definition DMENU_SPEAKERS_CALL : Call := mkCall ["dmenu"] (Some "57 Built-in Speakers").

(** The level 0.5, and a [float] that reads it. *)
Definition HALF : SpecFloat.spec_float := SpecFloat.S754_finite false 1 (-1).

Definition sample_float (text : string) : option SpecFloat.spec_float :=
  if String.eqb text "0.50" || String.eqb text ("0.50" +:+ NEWLINE)
  then Some HALF else None.

(** [wpctl get-volume] answers with the given reading. *)
Definition host_reading (reading : string) : Host :=
  sample_host None NotStarted NotStarted (Exited 0 reading) (fun _ => true).

(** A store with the microphone at 0, the speakers at 1 and the microphone,
    already read, everywhere else. *)
Definition read_mic_device : AudioDevice.t :=
  AudioDevice.mk (PInt 42) (PStr "Headset Mic") INPUT (Some false) (Some HALF).

Definition sample_objects : nat -> AudioDevice.t :=
  <[0 := mic_device]> (<[1 := speaker_device]> (fun _ => read_mic_device)).

Definition GET_VOLUME_MIC_CALL : Call := mkCall ["wpctl"; "get-volume"; "42"] None.
Definition GET_VOLUME_SPEAKERS_CALL : Call := mkCall ["wpctl"; "get-volume"; "57"] None.

(** [wpctl] reports the level 0.50, as it prints it: with a line feed. *)
Definition host_half : Host := host_reading ("Volume: 0.50" +:+ NEWLINE).

(** What [wpctl] prints for a muted device ends with a line feed. *)
Definition MUTED_READING : string := "Volume: 0.40 [MUTED]" +:+ NEWLINE.

(** The microphone listed twice around the speakers. *)
Definition populated : fetch_result * (nat -> AudioDevice.t) * list Call :=
  populate_volume host_half sample_float [0; 1; 0] sample_objects [].

(** ** The device parser: properties *)

Lemma getitem_dict m key :
  getitem (PDict m) key =
  match m !! key with Some x => Ok x | None => Raise KeyError end.
Proof. reflexivity. Qed.

Lemma py_eq_str_true v lit : py_eq_str v lit = true ↔ v = PStr lit.
Proof.
  destruct v; simpl; try (split; [discriminate | congruence]).
  rewrite String.eqb_eq. split; congruence.
Qed.

Lemma py_eq_str_false v lit : py_eq_str v lit = false ↔ v ≠ PStr lit.
Proof.
  rewrite <- py_eq_str_true. destruct (py_eq_str v lit); split; congruence.
Qed.

(** C4: a record whose [type] entry is not the string
    [PipeWire:Interface:Node] (or is missing) is rejected: the parser returns
    [None]. *)
Theorem parser_rejects_other_type (m : gmap string pyval) :
  m !! "type" ≠ Some (PStr NODE_TYPE) →
  audio_device_from_pw_node (PDict m) = Ok None.
Proof.
  intros Hty. unfold audio_device_from_pw_node. cbn [getitem].
  destruct (m !! "type") as [ty|] eqn:E; [|reflexivity].
  cbn [mbind result_bind].
  assert (py_eq_str ty NODE_TYPE = false) as ->; [|reflexivity].
  apply py_eq_str_false. congruence.
Qed.

Lemma parser_rejects_other_type_witness :
  port_record !! "type" ≠ Some (PStr NODE_TYPE) ∧
  audio_device_from_pw_node (PDict port_record) = Ok None.
Proof.
  assert (port_record !! "type" ≠ Some (PStr NODE_TYPE)) as H
    by (vm_compute; discriminate).
  split; [exact H | exact (parser_rejects_other_type port_record H)].
Defined.

(** The parser on a record that has every entry it reads. *)
Lemma parser_all_present (m info props : gmap string pyval) (id name cls : pyval) :
  m !! "type" = Some (PStr NODE_TYPE) →
  m !! "info" = Some (PDict info) →
  info !! "props" = Some (PDict props) →
  props !! "object.id" = Some id →
  props !! "node.description" = Some name →
  props !! "media.class" = Some cls →
  audio_device_from_pw_node (PDict m) =
  Ok (match match_media_class cls with
      | Some direction => Some (AudioDevice.mk id name direction None None)
      | None => None
      end).
Proof.
  intros Hty Hinfo Hprops Hid Hname Hcls.
  unfold audio_device_from_pw_node. cbn [getitem]. rewrite Hty, Hinfo.
  cbn [mbind result_bind getitem].
  assert (py_eq_str (PStr NODE_TYPE) NODE_TYPE = true) as ->
    by (apply py_eq_str_true; reflexivity).
  cbn [negb]. rewrite Hprops. cbn [mbind result_bind getitem].
  rewrite Hid, Hname, Hcls. cbn [mbind result_bind].
  destruct (match_media_class cls); reflexivity.
Qed.

Lemma match_media_class_sink : match_media_class (PStr "Audio/Sink") = Some OUTPUT.
Proof. reflexivity. Qed.

Lemma match_media_class_source : match_media_class (PStr "Audio/Source") = Some INPUT.
Proof. reflexivity. Qed.

Lemma match_media_class_other cls :
  cls ≠ PStr "Audio/Sink" → cls ≠ PStr "Audio/Source" →
  match_media_class cls = None.
Proof.
  intros H1 H2. unfold match_media_class.
  apply py_eq_str_false in H1. apply py_eq_str_false in H2.
  rewrite H1, H2. reflexivity.
Qed.

(** C3: on a record tagged as a node that has [info], [props] and the three
    entries, the media class decides alone: ["Audio/Sink"] gives a device with
    direction OUTPUT, ["Audio/Source"] one with direction INPUT, anything else
    gives [None]; a device that is returned has [muted] and [volume] unset. *)
Theorem parser_media_class (m info props : gmap string pyval) (id name cls : pyval) :
  m !! "type" = Some (PStr NODE_TYPE) →
  m !! "info" = Some (PDict info) →
  info !! "props" = Some (PDict props) →
  props !! "object.id" = Some id →
  props !! "node.description" = Some name →
  props !! "media.class" = Some cls →
  (cls = PStr "Audio/Sink" →
     audio_device_from_pw_node (PDict m) =
     Ok (Some (AudioDevice.mk id name OUTPUT None None)))
  ∧ (cls = PStr "Audio/Source" →
     audio_device_from_pw_node (PDict m) =
     Ok (Some (AudioDevice.mk id name INPUT None None)))
  ∧ (cls ≠ PStr "Audio/Sink" → cls ≠ PStr "Audio/Source" →
     audio_device_from_pw_node (PDict m) = Ok None)
  ∧ (∀ dev, audio_device_from_pw_node (PDict m) = Ok (Some dev) →
     AudioDevice.muted dev = None ∧ AudioDevice.volume dev = None).
Proof.
  intros Hty Hinfo Hprops Hid Hname Hcls.
  rewrite (parser_all_present m info props id name cls) by assumption.
  split; [|split; [|split]].
  - intros ->. reflexivity.
  - intros ->. reflexivity.
  - intros H1 H2. rewrite match_media_class_other by assumption. reflexivity.
  - intros dev. destruct (match_media_class cls); intros [= <-].
    split; reflexivity.
Qed.

Lemma match_media_class_not_str cls :
  (∀ s, cls ≠ PStr s) → match_media_class cls = None.
Proof. intros H. apply match_media_class_other; apply H. Qed.

(** C2, as the code has it: a record that lacks [info], or [props] inside a
    mapping [info], or one of the three entries inside a mapping [props], or
    whose media class is there but is not a string, is answered with [None]
    and no exception leaves the parser. *)
Theorem parser_missing_field (m : gmap string pyval) :
  m !! "info" = None
  ∨ (∃ info, m !! "info" = Some (PDict info) ∧
       (info !! "props" = None
        ∨ ∃ props, info !! "props" = Some (PDict props) ∧
            (props !! "object.id" = None
             ∨ props !! "node.description" = None
             ∨ props !! "media.class" = None
             ∨ ∃ cls, props !! "media.class" = Some cls ∧ ∀ s, cls ≠ PStr s))) →
  audio_device_from_pw_node (PDict m) = Ok None.
Proof.
  intros Hmiss. unfold audio_device_from_pw_node. cbn [getitem].
  destruct (m !! "type") as [ty|]; [|reflexivity].
  cbn [mbind result_bind].
  destruct (negb (py_eq_str ty NODE_TYPE)); [reflexivity|].
  destruct Hmiss as [-> | (info & -> & Hmiss)]; [reflexivity|].
  cbn [mbind result_bind getitem].
  destruct Hmiss as [-> | (props & -> & Hmiss)]; [reflexivity|].
  cbn [mbind result_bind getitem].
  destruct (props !! "object.id"); [|reflexivity].
  destruct (props !! "node.description"); [|reflexivity].
  destruct (props !! "media.class") as [cls|]; [|reflexivity].
  destruct Hmiss as [H | [H | [H | (cls' & [= <-] & Hshape)]]];
    try discriminate H.
  cbn [mbind result_bind]. rewrite match_media_class_not_str by exact Hshape.
  reflexivity.
Qed.

Lemma parser_media_class_witness :
  audio_device_from_pw_node speakers =
    Ok (Some (AudioDevice.mk (PInt 57) (PStr "Built-in Speakers") OUTPUT None None))
  ∧ audio_device_from_pw_node headset_mic =
    Ok (Some (AudioDevice.mk (PInt 42) (PStr "Headset Mic") INPUT None None))
  ∧ audio_device_from_pw_node video_camera = Ok None.
Proof.
  split; [|split].
  - refine (proj1 (parser_media_class _ _
      (device_props (PInt 57) (PStr "Built-in Speakers") (PStr "Audio/Sink"))
      (PInt 57) (PStr "Built-in Speakers") (PStr "Audio/Sink")
      _ _ _ _ _ _) _); reflexivity.
  - refine (proj1 (proj2 (parser_media_class _ _
      (device_props (PInt 42) (PStr "Headset Mic") (PStr "Audio/Source"))
      (PInt 42) (PStr "Headset Mic") (PStr "Audio/Source")
      _ _ _ _ _ _)) _); reflexivity.
  - refine (proj1 (proj2 (proj2 (parser_media_class _ _
      (device_props (PInt 63) (PStr "Webcam") (PStr "Video/Source"))
      (PInt 63) (PStr "Webcam") (PStr "Video/Source")
      _ _ _ _ _ _))) _ _); solve [reflexivity | discriminate].
Defined.

Lemma parser_missing_field_witness :
  audio_device_from_pw_node (PDict nameless_record) = Ok None
  ∧ audio_device_from_pw_node (PDict port_record) = Ok None
  ∧ audio_device_from_pw_node numeric_class_node = Ok None.
Proof.
  split; [|split].
  - apply parser_missing_field. right. eexists. split; [reflexivity|].
    right. eexists. split; [reflexivity|]. right. left. reflexivity.
  - apply parser_missing_field. left. reflexivity.
  - apply parser_missing_field. right. eexists. split; [reflexivity|].
    right. eexists. split; [reflexivity|]. right. right. right.
    exists (PInt 7). split; [reflexivity | discriminate].
Defined.

(** The parser does not look at the shape of the id: a list is stored in the
    device as it is, so a record with an entry of the wrong shape is not
    always answered with [None]. *)
Lemma parser_keeps_misshapen_id :
  audio_device_from_pw_node list_id_node =
  Ok (Some (AudioDevice.mk (PList [PInt 42]) (PStr "Headset Mic") INPUT None None))
  ∧ audio_device_from_pw_node list_id_node ≠ Ok None.
Proof. split; [reflexivity | discriminate]. Qed.

(** Subscripting a number is a [TypeError], which [except KeyError] lets
    through. *)
Lemma parser_raises_on_scalar_info :
  audio_device_from_pw_node scalar_info_node = Raise TypeError.
Proof. reflexivity. Qed.

(** A value that is no mapping at all is a [TypeError] as well. *)
Lemma parser_raises_on_non_mapping (v : pyval) :
  (∀ m, v ≠ PDict m) → audio_device_from_pw_node v = Raise TypeError.
Proof. intros H. destruct v; try reflexivity. destruct (H m eq_refl). Qed.

(** ** Splitting and decimal numerals *)

Lemma str_split_nonempty sep s : str_split sep s ≠ [].
Proof.
  destruct s as [|c rest]; simpl; [discriminate|].
  destruct (Ascii.eqb c sep); [discriminate|].
  destruct (str_split sep rest); discriminate.
Qed.

(** [s.split(sep)[0]] never raises. *)
Lemma str_split_first_total sep s : ∃ field, getitem0 (str_split sep s) = Ok field.
Proof.
  pose proof (str_split_nonempty sep s) as H.
  destruct (str_split sep s) as [|field fields]; [congruence|].
  exists field. reflexivity.
Qed.

Lemma str_app_nil (b : string) : "" +:+ b = b.
Proof. reflexivity. Qed.

Lemma str_app_cons (x : ascii) (a b : string) :
  String x a +:+ b = String x (a +:+ b).
Proof. reflexivity. Qed.

Lemma str_app_assoc (a b c : string) : (a +:+ b) +:+ c = a +:+ (b +:+ c).
Proof.
  induction a as [|x a IH]; [reflexivity|].
  rewrite !str_app_cons, IH. reflexivity.
Qed.

(** A first field that holds no separator is cut off at the first one. *)
Lemma str_split_prefix sep a rest :
  str_contains sep a = false →
  str_split sep (a +:+ String sep rest) = a :: str_split sep rest.
Proof.
  induction a as [|c a IH]; intros H.
  - rewrite str_app_nil. simpl. rewrite Ascii.eqb_refl. reflexivity.
  - simpl in H. apply orb_false_elim in H as [Hc Ha].
    rewrite str_app_cons. simpl. rewrite Hc, (IH Ha). reflexivity.
Qed.

Lemma string_of_uint_no_space d :
  str_contains SPACE (NilEmpty.string_of_uint d) = false.
Proof. induction d; simpl; auto. Qed.

Lemma str_int_no_space z : str_contains SPACE (str_int z) = false.
Proof.
  unfold str_int, NilZero.string_of_int, NilZero.string_of_uint.
  destruct (Z.to_int z) as [d|d]; destruct d; simpl;
    try reflexivity; apply string_of_uint_no_space.
Qed.

Lemma to_int_not_nil z :
  Z.to_int z ≠ Decimal.Pos Decimal.Nil ∧ Z.to_int z ≠ Decimal.Neg Decimal.Nil.
Proof.
  destruct z as [|p|p]; simpl; split; try discriminate;
    intros [= H]; exact (Unsigned.to_uint_nonnil p H).
Qed.

(** Two integers with the same numeral are the same integer. *)
Lemma str_int_inj a b : str_int a = str_int b → a = b.
Proof.
  intros H. apply DecimalZ.to_int_inj.
  destruct (to_int_not_nil a) as [Ha1 Ha2], (to_int_not_nil b) as [Hb1 Hb2].
  pose proof (NilZero.isi _ Ha1 Ha2) as Ea.
  pose proof (NilZero.isi _ Hb1 Hb2) as Eb.
  unfold str_int in H. rewrite H in Ea. congruence.
Qed.

Section MenuLine.
Context (host : Host).

Lemma menu_line_int z name direction muted volume :
  menu_line host (AudioDevice.mk (PInt z) name direction muted volume) =
  str_int z +:+ String SPACE (py_str host name).
Proof. reflexivity. Qed.

(** C6: a device with an integer id is rendered as a line whose text before
    the first space is the numeral of that id, whatever the name is and
    whatever follows the line in the picker's output; the numeral
    determines the id. *)
Theorem menu_line_roundtrip (z : Z) (name : pyval) (direction : Direction)
    (muted : option bool) (volume : option SpecFloat.spec_float) :
  let dev := AudioDevice.mk (PInt z) name direction muted volume in
  getitem0 (str_split SPACE (menu_line host dev)) = Ok (str_int z)
  ∧ (∀ rest, getitem0 (str_split SPACE (menu_line host dev +:+ rest)) = Ok (str_int z))
  ∧ (∀ z', str_int z' = str_int z → z' = z).
Proof.
  intros dev. subst dev. rewrite menu_line_int. split; [|split].
  - rewrite str_split_prefix by apply str_int_no_space. reflexivity.
  - intros rest. rewrite str_app_assoc, str_app_cons.
    rewrite str_split_prefix by apply str_int_no_space. reflexivity.
  - intros z'. apply str_int_inj.
Qed.
End MenuLine.

Example menu_line_headset :
  menu_line host_cancel
    (AudioDevice.mk (PInt 42) (PStr "Headset Mic") INPUT None None)
  = "42 Headset Mic".
Proof. reflexivity. Qed.

Example str_int_negative : str_int (-120) = "-120".
Proof. reflexivity. Qed.

Example str_split_fields : str_split SPACE "rofi -dmenu" = ["rofi"; "-dmenu"].
Proof. reflexivity. Qed.

Example str_split_empty : str_split SPACE "" = [""].
Proof. reflexivity. Qed.

(** ** The device lister: properties *)

Lemma is_input_iff dev : is_input dev = true ↔ AudioDevice.direction dev = INPUT.
Proof. unfold is_input. destruct (AudioDevice.direction dev); simpl; split; congruence. Qed.

Lemma is_output_iff dev : is_output dev = true ↔ AudioDevice.direction dev = OUTPUT.
Proof. unfold is_output. destruct (AudioDevice.direction dev); simpl; split; congruence. Qed.

Lemma is_output_negb dev : is_output dev = negb (is_input dev).
Proof. unfold is_input, is_output. destruct (AudioDevice.direction dev); reflexivity. Qed.

Lemma elem_of_inputs dev devs :
  dev ∈ List.filter is_input devs ↔ dev ∈ devs ∧ AudioDevice.direction dev = INPUT.
Proof. rewrite !list_elem_of_In, filter_In, is_input_iff. reflexivity. Qed.

Lemma elem_of_outputs dev devs :
  dev ∈ List.filter is_output devs ↔ dev ∈ devs ∧ AudioDevice.direction dev = OUTPUT.
Proof. rewrite !list_elem_of_In, filter_In, is_output_iff. reflexivity. Qed.

Lemma filter_keeps_order {A} (keep : A → bool) (l : list A) :
  List.filter keep l `sublist_of` l.
Proof.
  induction l as [|x l IH]; simpl; [constructor|].
  destruct (keep x); [apply sublist_skip | apply sublist_cons]; exact IH.
Qed.

Lemma inputs_outputs_all devs :
  List.filter is_input devs ++ List.filter is_output devs ≡ₚ devs.
Proof.
  induction devs as [|dev devs IH]; simpl; [reflexivity|].
  rewrite is_output_negb. destruct (is_input dev); simpl.
  - rewrite IH. reflexivity.
  - rewrite <- Permutation_middle, IH. reflexivity.
Qed.

Section Lister.
Context (host : Host).

Lemma get_inputs_unfold log :
  get_inputs host log =
  match get_audio_devices host log with
  | (Ok devs, log') => (Ok (List.filter is_input devs), log')
  | (Raise e, log') => (Raise e, log')
  end.
Proof. reflexivity. Qed.

Lemma get_outputs_unfold log :
  get_outputs host log =
  match get_audio_devices host log with
  | (Ok devs, log') => (Ok (List.filter is_output devs), log')
  | (Raise e, log') => (Raise e, log')
  end.
Proof. reflexivity. Qed.

(** C5: when the listing of a dump returns the devices [devs], the two
    filtered listings return lists [ins] and [outs] that together hold the
    devices of [devs], each as often as [devs] does; every device of [devs]
    has direction INPUT and is in [ins] or direction OUTPUT and is in
    [outs]; no device is in both; both keep the order of [devs]. *)
Theorem inputs_outputs_partition log devs log' :
  get_audio_devices host log = (Ok devs, log') →
  ∃ ins outs,
    get_inputs host log = (Ok ins, log')
    ∧ get_outputs host log = (Ok outs, log')
    ∧ ins ++ outs ≡ₚ devs
    ∧ (∀ dev, dev ∈ devs →
         (AudioDevice.direction dev = INPUT ∧ dev ∈ ins)
         ∨ (AudioDevice.direction dev = OUTPUT ∧ dev ∈ outs))
    ∧ (∀ dev, dev ∈ ins → dev ∈ outs → False)
    ∧ ins `sublist_of` devs
    ∧ outs `sublist_of` devs.
Proof.
  intros Hlist.
  exists (List.filter is_input devs), (List.filter is_output devs).
  rewrite get_inputs_unfold, get_outputs_unfold, Hlist.
  repeat split.
  - apply inputs_outputs_all.
  - intros dev Hdev.
    destruct (AudioDevice.direction dev) eqn:Hdir; [left | right];
      (split; [reflexivity|]).
    + apply elem_of_inputs. auto.
    + apply elem_of_outputs. auto.
  - intros dev [_ Hin]%elem_of_inputs [_ Hout]%elem_of_outputs. congruence.
  - apply filter_keeps_order.
  - apply filter_keeps_order.
Qed.

(** A listing that fails fails the same way in both filtered listings. *)
Lemma inputs_outputs_fail log e log' :
  get_audio_devices host log = (Raise e, log') →
  get_inputs host log = (Raise e, log') ∧ get_outputs host log = (Raise e, log').
Proof.
  intros Hlist. rewrite get_inputs_unfold, get_outputs_unfold, Hlist. auto.
Qed.

(** ** Menu-program resolution: properties *)

(** C9: without [--menu] the candidates are tried in the order dmenu,
    dmenu-wl, rofi, fuzzel and the first one whose program is on the path
    is the answer, with its arguments.  That answer is what the command line
    runs with: the group callback gets it, and the subcommand gets its
    words.  When no candidate is found, the group callback raises the usage
    error before any process is started and the exit status is not 0. *)
Theorem menu_resolution :
  let found :=
    if which host "dmenu" then Some "dmenu"
    else if which host "dmenu-wl" then Some "dmenu-wl"
    else if which host "rofi" then Some "rofi -dmenu"
    else if which host "fuzzel" then Some "fuzzel --dmenu"
    else None in
  find_menuprog host = Ok found
  ∧ resolve_menu host None = Ok found
  ∧ startup host None = audiomenu host found
  ∧ (∀ cmd log,
       main host None cmd log =
       match audiomenu host found with
       | Ok menuprog => subcommand host cmd menuprog log
       | Raise e => (Raise e, log)
       end)
  ∧ (which host "dmenu" = false → which host "dmenu-wl" = false →
     which host "rofi" = false → which host "fuzzel" = false →
     ∀ cmd log,
       main host None cmd log = (Raise UsageError, log)
       ∧ exit_status (fst (main host None cmd log)) ≠ 0%Z
       ∧ error_shown (fst (main host None cmd log)) = true).
Proof.
  intros found.
  assert (find_menuprog host = Ok found) as Hfind.
  { unfold find_menuprog, MENU_CANDIDATES, found. simpl.
    destruct (which host "dmenu"); [reflexivity|].
    destruct (which host "dmenu-wl"); [reflexivity|].
    destruct (which host "rofi"); [reflexivity|].
    destruct (which host "fuzzel"); reflexivity. }
  assert (startup host None = audiomenu host found) as Hstart.
  { unfold startup, resolve_menu. rewrite Hfind. reflexivity. }
  assert (∀ cmd log,
            main host None cmd log =
            match audiomenu host found with
            | Ok menuprog => subcommand host cmd menuprog log
            | Raise e => (Raise e, log)
            end) as Hmain.
  { intros cmd log. unfold main, mbind, M_bind, lift. rewrite Hstart.
    destruct (audiomenu host found); reflexivity. }
  split; [exact Hfind|].
  split; [exact Hfind|].
  split; [exact Hstart|].
  split; [exact Hmain|].
  intros H1 H2 H3 H4 cmd log. rewrite Hmain.
  unfold found. rewrite H1, H2, H3, H4. simpl. repeat split. discriminate.
Qed.
End Lister.

Example listing_two_devices :
  get_audio_devices host_cancel [] = (Ok [mic_device; speaker_device], [DUMP_CALL]).
Proof. vm_compute. reflexivity. Qed.

(** The scenario of the specification: one microphone in the dump. *)
Example listing_scenario :
  get_inputs
    (sample_host (Some (PList [headset_mic])) (Exited 0 "[...]") (Exited 1 "")
       (Exited 0 "") (fun _ => true)) []
  = (Ok [mic_device], [DUMP_CALL]).
Proof. vm_compute. reflexivity. Qed.

Lemma inputs_outputs_partition_witness :
  ∃ ins outs,
    get_inputs host_cancel [] = (Ok ins, [DUMP_CALL])
    ∧ get_outputs host_cancel [] = (Ok outs, [DUMP_CALL])
    ∧ ins ++ outs ≡ₚ [mic_device; speaker_device]
    ∧ (∀ dev, dev ∈ [mic_device; speaker_device] →
         (AudioDevice.direction dev = INPUT ∧ dev ∈ ins)
         ∨ (AudioDevice.direction dev = OUTPUT ∧ dev ∈ outs))
    ∧ (∀ dev, dev ∈ ins → dev ∈ outs → False)
    ∧ ins `sublist_of` [mic_device; speaker_device]
    ∧ outs `sublist_of` [mic_device; speaker_device].
Proof.
  apply (inputs_outputs_partition host_cancel [] [mic_device; speaker_device]).
  vm_compute. reflexivity.
Defined.

Lemma menu_resolution_witness :
  main host_bare None SelectSink [] = (Raise UsageError, [])
  ∧ exit_status (fst (main host_bare None SelectSink [])) ≠ 0%Z
  ∧ error_shown (fst (main host_bare None SelectSink [])) = true.
Proof.
  apply (proj2 (proj2 (proj2 (proj2 (menu_resolution host_bare))))); reflexivity.
Defined.

Example menu_resolution_rofi :
  find_menuprog (sample_host None NotStarted NotStarted NotStarted
                   (fun exe => bool_decide (exe = "rofi") || bool_decide (exe = "fuzzel")))
  = Ok (Some "rofi -dmenu").
Proof. vm_compute. reflexivity. Qed.

(** ** Processes and handlers: properties *)

(** Run the first statement of a sequence of effectful statements. *)
Ltac bind_step := unfold mbind at 1, M_bind.

Section Handlers.
Context (host : Host).

Lemma run_exit_zero argv stdin out log :
  argv ≠ [] →
  spawn host (mkCall argv stdin) = Exited 0 out →
  run host argv stdin log = (Ok (mkCompleted 0 out), log ++ [mkCall argv stdin]).
Proof.
  intros Hargv Hspawn. unfold run. rewrite Hspawn.
  destruct argv; [congruence | reflexivity].
Qed.

Lemma run_exit_nonzero argv stdin rc out log :
  argv ≠ [] →
  spawn host (mkCall argv stdin) = Exited rc out →
  rc ≠ 0%Z →
  run host argv stdin log = (Raise CalledProcessError, log ++ [mkCall argv stdin]).
Proof.
  intros Hargv Hspawn Hrc. unfold run. rewrite Hspawn.
  destruct argv; [congruence|].
  apply Z.eqb_neq in Hrc. rewrite Hrc. reflexivity.
Qed.

Lemma run_not_started argv stdin log :
  argv ≠ [] →
  spawn host (mkCall argv stdin) = NotStarted →
  run host argv stdin log = (Raise OSError, log ++ [mkCall argv stdin]).
Proof.
  intros Hargv Hspawn. unfold run. rewrite Hspawn.
  destruct argv; [congruence | reflexivity].
Qed.

Lemma run_inherit_exit_zero argv out log :
  argv ≠ [] →
  spawn host (mkRun argv None false) = Exited 0 out →
  run_inherit host argv log = (Ok tt, log ++ [mkRun argv None false]).
Proof.
  intros Hargv Hspawn. unfold run_inherit. rewrite Hspawn.
  destruct argv; [congruence | reflexivity].
Qed.

Lemma run_inherit_exit_nonzero argv rc out log :
  argv ≠ [] →
  spawn host (mkRun argv None false) = Exited rc out →
  rc ≠ 0%Z →
  run_inherit host argv log =
  (Raise CalledProcessError, log ++ [mkRun argv None false]).
Proof.
  intros Hargv Hspawn Hrc. unfold run_inherit. rewrite Hspawn.
  destruct argv; [congruence|].
  apply Z.eqb_neq in Hrc. rewrite Hrc. reflexivity.
Qed.

Lemma run_inherit_not_started argv log :
  argv ≠ [] →
  spawn host (mkRun argv None false) = NotStarted →
  run_inherit host argv log = (Raise OSError, log ++ [mkRun argv None false]).
Proof.
  intros Hargv Hspawn. unfold run_inherit. rewrite Hspawn.
  destruct argv; [congruence | reflexivity].
Qed.

Lemma run_inherit_logged argv log :
  snd (run_inherit host argv log) = log ++ [mkRun argv None false].
Proof. reflexivity. Qed.

(** Every call of [run] is logged, whatever comes of it. *)
Lemma run_logged argv stdin log :
  snd (run host argv stdin log) = log ++ [mkCall argv stdin].
Proof. reflexivity. Qed.

Lemma wpctl_set_default_nonempty id : wpctl_set_default id ≠ [].
Proof. discriminate. Qed.

(** *** The listing *)

Lemma listing_dump_exit_nonzero rc out log :
  spawn host DUMP_CALL = Exited rc out → rc ≠ 0%Z →
  get_audio_devices host log = (Raise CalledProcessError, log ++ [DUMP_CALL]).
Proof.
  intros Hspawn Hrc. unfold get_audio_devices.
  bind_step.
  rewrite (run_exit_nonzero ["pw-dump"] None rc out) by (done || exact Hspawn).
  reflexivity.
Qed.

Lemma listing_dump_not_json out log :
  spawn host DUMP_CALL = Exited 0 out → loads host out = None →
  get_audio_devices host log =
  (Raise (decode_exn (loads_error host out)), log ++ [DUMP_CALL]).
Proof.
  intros Hspawn Hloads. unfold get_audio_devices.
  bind_step.
  rewrite (run_exit_zero ["pw-dump"] None out) by (done || exact Hspawn).
  unfold mbind at 1, M_bind, lift, json_loads. simpl. rewrite Hloads.
  reflexivity.
Qed.

Lemma listing_dump_list out dump log :
  spawn host DUMP_CALL = Exited 0 out → loads host out = Some (PList dump) →
  get_audio_devices host log = (parse_nodes dump, log ++ [DUMP_CALL]).
Proof.
  intros Hspawn Hloads. unfold get_audio_devices.
  bind_step.
  rewrite (run_exit_zero ["pw-dump"] None out) by (done || exact Hspawn).
  unfold mbind, M_bind, lift, json_loads. simpl. rewrite Hloads.
  reflexivity.
Qed.
Lemma listing_logged (log : list Call) :
  ∃ r, get_audio_devices host log = (r, log ++ [DUMP_CALL]).
Proof.
  unfold get_audio_devices. bind_step.
  pose proof (run_logged ["pw-dump"] None log) as Hlog.
  destruct (run host ["pw-dump"] None log) as [[output|e] l];
    simpl in Hlog; subst l; [|eauto].
  unfold mbind, M_bind, lift.
  destruct (json_loads host (cp_stdout output)); [|eauto].
  destruct (py_iter a); eauto.
Qed.

End Handlers.

Section Subcommands.
Context (host : Host).

(** Once the listing has returned, both subcommands are that block. *)
Lemma subcommand_listed cmd menu log devs log' :
  listing host cmd log = (Ok devs, log') →
  subcommand host cmd menu log =
  guarded_prompt host menu (menu_text host devs) log'.
Proof.
  destruct cmd; simpl; intros Hlist.
  - unfold select_source, guarded_prompt, try_exceptM.
    unfold mbind at 1, M_bind. rewrite Hlist. reflexivity.
  - unfold select_sink. unfold mbind at 1, M_bind. rewrite Hlist. reflexivity.
Qed.

(** A listing that fails: [select_sink] lets every exception through,
    [select_source] catches the [CalledProcessError] of the dump. *)
Lemma select_sink_listing_fails menu log e log' :
  get_outputs host log = (Raise e, log') →
  select_sink host menu log = (Raise e, log').
Proof.
  intros Hlist. unfold select_sink. bind_step.
  rewrite Hlist. reflexivity.
Qed.

Lemma select_source_listing_fails menu log e log' :
  get_inputs host log = (Raise e, log') →
  select_source host menu log =
  (if exn_eqb e CalledProcessError then Ok tt else Raise e, log').
Proof.
  intros Hlist. unfold select_source, try_exceptM.
  unfold mbind at 1, M_bind. rewrite Hlist.
  destruct (exn_eqb e CalledProcessError); reflexivity.
Qed.

Lemma prompt_cancelled menu text rc out log :
  menu ≠ [] →
  spawn host (mkCall menu (Some text)) = Exited rc out → rc ≠ 0%Z →
  prompt_and_set host menu text log =
  (Raise CalledProcessError, log ++ [mkCall menu (Some text)]).
Proof.
  intros Hmenu Hspawn Hrc. unfold prompt_and_set.
  bind_step.
  rewrite (run_exit_nonzero host menu (Some text) rc out) by assumption.
  reflexivity.
Qed.

Lemma prompt_chosen menu text out id log :
  menu ≠ [] →
  spawn host (mkCall menu (Some text)) = Exited 0 out →
  getitem0 (str_split SPACE out) = Ok id →
  prompt_and_set host menu text log =
  match run_inherit host (wpctl_set_default id) (log ++ [mkCall menu (Some text)]) with
  | (Ok _, log') => (Ok tt, log')
  | (Raise e, log') => (Raise e, log')
  end.
Proof.
  intros Hmenu Hspawn Hid. unfold prompt_and_set.
  bind_step.
  rewrite (run_exit_zero host menu (Some text) out) by assumption.
  unfold mbind at 1, M_bind, lift. simpl. rewrite Hid. reflexivity.
Qed.

(** The menu call is logged first, whatever the picker answers. *)
Lemma prompt_logs_menu_call menu text log :
  ∃ r rest,
    prompt_and_set host menu text log = (r, log ++ mkCall menu (Some text) :: rest).
Proof.
  unfold prompt_and_set. bind_step.
  destruct (run host menu (Some text) log) as [[cp|e] l] eqn:Hrun;
    pose proof (run_logged host menu (Some text) log) as Hlog;
    rewrite Hrun in Hlog; simpl in Hlog; subst l.
  - unfold mbind at 1, M_bind, lift.
    destruct (getitem0 (str_split SPACE (cp_stdout cp))) as [id|e].
    + unfold mbind, M_bind, mret, M_ret.
      destruct (run_inherit host (wpctl_set_default id)
                  (log ++ [mkCall menu (Some text)])) as [[cp'|e] l] eqn:Hrun';
        pose proof (run_inherit_logged host (wpctl_set_default id)
                      (log ++ [mkCall menu (Some text)])) as Hlog';
        rewrite Hrun' in Hlog'; simpl in Hlog'; subst l;
        rewrite <- app_assoc; simpl; eauto.
    + exists (Raise e), []. reflexivity.
  - exists (Raise e), []. reflexivity.
Qed.

Lemma guarded_prompt_logs_menu_call menu text log :
  ∃ r rest,
    guarded_prompt host menu text log = (r, log ++ mkCall menu (Some text) :: rest).
Proof.
  destruct (prompt_logs_menu_call menu text log) as (r & rest & Hrun).
  unfold guarded_prompt, try_exceptM. rewrite Hrun.
  destruct r as [[]|e]; [eauto|].
  destruct (exn_eqb e CalledProcessError); simpl; eauto.
Qed.

Lemma listing_extends cmd log r log' :
  listing host cmd log = (r, log') → log' = log ++ [DUMP_CALL].
Proof.
  destruct (listing_logged host log) as (r0 & Hlist).
  destruct cmd; simpl;
    rewrite ?get_inputs_unfold, ?get_outputs_unfold, Hlist;
    destruct r0; intros [= _ <-]; reflexivity.
Qed.

Lemma str_app_nil_r (s : string) : s +:+ "" = s.
Proof.
  induction s as [|c s IH]; [reflexivity|]. rewrite str_app_cons, IH. reflexivity.
Qed.

Lemma terminal_app log1 log2 :
  terminal host (log1 ++ log2) = terminal host log1 +:+ terminal host log2.
Proof.
  induction log1 as [|call log1 IH]; [reflexivity|].
  simpl. rewrite IH, str_app_assoc. reflexivity.
Qed.

(** A call that captures shows nothing. *)
Lemma terminal_captured log argv stdin :
  terminal host (log ++ [mkCall argv stdin]) = terminal host log.
Proof. rewrite terminal_app. simpl. apply str_app_nil_r. Qed.

(** The default-setter shows what [wpctl] writes. *)
Lemma terminal_set_default log id rc out :
  spawn host (set_default_call id) = Exited rc out →
  terminal host (log ++ [set_default_call id]) =
  terminal host log +:+ out +:+ stderr_text host (set_default_call id).
Proof.
  intros Hspawn. rewrite terminal_app. simpl. unfold child_text. simpl.
  rewrite Hspawn, str_app_nil_r. reflexivity.
Qed.

Lemma main_started menu_option cmd menu log :
  startup host menu_option = Ok menu →
  main host menu_option cmd log = subcommand host cmd menu log.
Proof. intros Hstart. unfold main, mbind, M_bind, lift. rewrite Hstart. reflexivity. Qed.
End Subcommands.

Section Outcomes.
Context (host : Host).

(** C7, as the code has it: in a run of either subcommand whose listing
    returned, a picker that exits with a status other than 0 ends the run
    normally with exit status 0; the script reports nothing, the picker's
    call is the last one made (no default-setter is started) and nothing
    reaches the terminal.  A default-setter that exits with a status other
    than 0 ends the run with exit status 0 and no report of the script as
    well, but it runs with the terminal of the script: what [wpctl] writes
    is shown. *)
Theorem picker_and_setter_failures_swallowed
    (menu_option : option string) (cmd : Subcommand) (menu : list string)
    (log log' : list Call) (devs : list AudioDevice.t) :
  startup host menu_option = Ok menu →
  menu ≠ [] →
  listing host cmd log = (Ok devs, log') →
  let menu_call := mkCall menu (Some (menu_text host devs)) in
  (∀ rc out,
     spawn host menu_call = Exited rc out → rc ≠ 0%Z →
     main host menu_option cmd log = (Ok tt, log' ++ [menu_call])
     ∧ exit_status (fst (main host menu_option cmd log)) = 0%Z
     ∧ error_shown (fst (main host menu_option cmd log)) = false
     ∧ terminal host (snd (main host menu_option cmd log)) = terminal host log)
  ∧ (∀ out id rc out',
     spawn host menu_call = Exited 0 out →
     getitem0 (str_split SPACE out) = Ok id →
     spawn host (set_default_call id) = Exited rc out' →
     rc ≠ 0%Z →
     main host menu_option cmd log =
       (Ok tt, log' ++ [menu_call; set_default_call id])
     ∧ exit_status (fst (main host menu_option cmd log)) = 0%Z
     ∧ error_shown (fst (main host menu_option cmd log)) = false
     ∧ terminal host (snd (main host menu_option cmd log)) =
       terminal host log +:+ out' +:+ stderr_text host (set_default_call id)).
Proof.
  intros Hstart Hmenu Hlist menu_call.
  pose proof (listing_extends host cmd log _ _ Hlist) as Hlog'.
  rewrite (main_started host menu_option cmd menu log Hstart).
  rewrite (subcommand_listed host cmd menu log devs log' Hlist).
  unfold guarded_prompt, try_exceptM. split.
  - intros rc out Hspawn Hrc.
    rewrite (prompt_cancelled host menu _ rc out) by assumption.
    simpl. repeat split.
    unfold mret, M_ret. simpl. subst log' menu_call.
    unfold DUMP_CALL. rewrite !terminal_captured. reflexivity.
  - intros out id rc out' Hspawn Hid Hset Hrc.
    rewrite (prompt_chosen host menu _ out id) by assumption.
    rewrite (run_inherit_exit_nonzero host (wpctl_set_default id) rc out')
      by (assumption || discriminate).
    simpl. rewrite <- app_assoc. repeat split.
    unfold mret, M_ret. simpl. subst log' menu_call.
    change [mkCall menu (Some (menu_text host devs)); mkRun (wpctl_set_default id) None false]
      with ([mkCall menu (Some (menu_text host devs))] ++ [set_default_call id]).
    rewrite !app_assoc, (terminal_set_default host _ id rc out' Hset).
    unfold DUMP_CALL. rewrite !terminal_captured. reflexivity.
Qed.

(** C10: with nothing to list, either subcommand still calls the picker,
    right after the listing, and gives it the empty text as input. *)
Theorem empty_list_still_prompts (cmd : Subcommand) (menu : list string)
    (log log' : list Call) :
  listing host cmd log = (Ok [], log') →
  menu_text host [] = ""
  ∧ ∃ r rest,
      subcommand host cmd menu log = (r, log' ++ mkCall menu (Some "") :: rest).
Proof.
  intros Hlist. split; [reflexivity|].
  rewrite (subcommand_listed host cmd menu log [] log' Hlist).
  apply guarded_prompt_logs_menu_call.
Qed.

(** C8, as the code has it: [select_source] does not parse the picker's
    answer.  The text before the first space, whatever it is, becomes the
    argument of [wpctl set-default]; no exception comes from taking it; the
    handler returns normally when that command exits, with any status, and
    raises only when the command cannot be started. *)
Theorem select_source_passes_choice_unparsed (menu : list string)
    (log log' : list Call) (devs : list AudioDevice.t) (out : string) :
  menu ≠ [] →
  get_inputs host log = (Ok devs, log') →
  spawn host (mkCall menu (Some (menu_text host devs))) = Exited 0 out →
  ∃ id,
    getitem0 (str_split SPACE out) = Ok id
    ∧ snd (select_source host menu log) =
        log' ++ [mkCall menu (Some (menu_text host devs));
                 set_default_call id]
    ∧ fst (select_source host menu log) =
        match spawn host (set_default_call id) with
        | Exited _ _ => Ok tt
        | NotStarted => Raise OSError
        end.
Proof.
  intros Hmenu Hlist Hspawn.
  destruct (str_split_first_total SPACE out) as [id Hid].
  exists id. split; [exact Hid|].
  change (select_source host menu log) with (subcommand host SelectSource menu log).
  rewrite (subcommand_listed host SelectSource menu log devs log' Hlist).
  unfold guarded_prompt, try_exceptM.
  rewrite (prompt_chosen host menu _ out id) by assumption.
  destruct (spawn host (set_default_call id)) as [rc out'|] eqn:Hset.
  - destruct (Z.eq_dec rc 0%Z) as [-> | Hrc].
    + rewrite (run_inherit_exit_zero host (wpctl_set_default id) out')
        by (assumption || discriminate).
      simpl. rewrite <- app_assoc. auto.
    + rewrite (run_inherit_exit_nonzero host (wpctl_set_default id) rc out')
        by (assumption || discriminate).
      simpl. rewrite <- app_assoc. auto.
  - rewrite (run_inherit_not_started host (wpctl_set_default id))
      by (assumption || discriminate).
    simpl. rewrite <- app_assoc. auto.
Qed.

Lemma decode_exn_not_caught why :
  exn_eqb (decode_exn why) CalledProcessError = false.
Proof. destruct why; reflexivity. Qed.

(** A dump that exits with a status other than 0, or whose output
    [json.loads] rejects, is fatal in [select_sink]. *)
Lemma select_sink_dump_failure_fatal menu_option menu log :
  startup host menu_option = Ok menu →
  (∀ rc out, spawn host DUMP_CALL = Exited rc out → rc ≠ 0%Z →
     main host menu_option SelectSink log =
       (Raise CalledProcessError, log ++ [DUMP_CALL]))
  ∧ (∀ out, spawn host DUMP_CALL = Exited 0 out → loads host out = None →
     main host menu_option SelectSink log =
       (Raise (decode_exn (loads_error host out)), log ++ [DUMP_CALL])).
Proof.
  intros Hstart.
  rewrite (main_started host menu_option SelectSink menu log Hstart). simpl.
  split.
  - intros rc out Hspawn Hrc. apply select_sink_listing_fails.
    apply inputs_outputs_fail.
    apply (listing_dump_exit_nonzero host rc out); assumption.
  - intros out Hspawn Hloads. apply select_sink_listing_fails.
    apply inputs_outputs_fail.
    apply (listing_dump_not_json host out); assumption.
Qed.

(** In [select_source] only the output that does not decode is fatal: the listing
    runs inside the [try] block, so the [CalledProcessError] of the dump is
    caught with those of the picker and the default-setter. *)
Lemma select_source_dump_failure menu_option menu log :
  startup host menu_option = Ok menu →
  (∀ rc out, spawn host DUMP_CALL = Exited rc out → rc ≠ 0%Z →
     main host menu_option SelectSource log = (Ok tt, log ++ [DUMP_CALL]))
  ∧ (∀ out, spawn host DUMP_CALL = Exited 0 out → loads host out = None →
     main host menu_option SelectSource log =
       (Raise (decode_exn (loads_error host out)), log ++ [DUMP_CALL])).
Proof.
  intros Hstart.
  rewrite (main_started host menu_option SelectSource menu log Hstart). simpl.
  split.
  - intros rc out Hspawn Hrc.
    rewrite (select_source_listing_fails host menu log CalledProcessError
               (log ++ [DUMP_CALL])); [reflexivity|].
    apply inputs_outputs_fail.
    apply (listing_dump_exit_nonzero host rc out); assumption.
  - intros out Hspawn Hloads.
    rewrite (select_source_listing_fails host menu log
               (decode_exn (loads_error host out)) (log ++ [DUMP_CALL]));
      [rewrite decode_exn_not_caught; reflexivity|].
    apply inputs_outputs_fail.
    apply (listing_dump_not_json host out); assumption.
Qed.
End Outcomes.

(** ** The properties on the sample hosts *)

Lemma picker_and_setter_failures_swallowed_witness :
  (main host_cancel (Some "dmenu") SelectSink [] =
     (Ok tt, [DUMP_CALL] ++ [DMENU_SPEAKERS_CALL])
   ∧ exit_status (fst (main host_cancel (Some "dmenu") SelectSink [])) = 0%Z
   ∧ error_shown (fst (main host_cancel (Some "dmenu") SelectSink [])) = false
   ∧ terminal host_cancel (snd (main host_cancel (Some "dmenu") SelectSink [])) =
     terminal host_cancel [])
  ∧ (main host_setter_complains (Some "dmenu") SelectSource [] =
       (Ok tt, [DUMP_CALL] ++ [DMENU_MIC_CALL; set_default_call "42"])
     ∧ exit_status (fst (main host_setter_complains (Some "dmenu") SelectSource [])) = 0%Z
     ∧ error_shown (fst (main host_setter_complains (Some "dmenu") SelectSource [])) = false
     ∧ terminal host_setter_complains
         (snd (main host_setter_complains (Some "dmenu") SelectSource [])) =
       terminal host_setter_complains [] +:+ ""
         +:+ stderr_text host_setter_complains (set_default_call "42")).
Proof.
  split.
  - refine (proj1 (picker_and_setter_failures_swallowed host_cancel
        (Some "dmenu") SelectSink ["dmenu"] [] [DUMP_CALL] [speaker_device]
        _ _ _) 1%Z "" _ _);
      solve [vm_compute; reflexivity | discriminate].
  - refine (proj2 (picker_and_setter_failures_swallowed host_setter_complains
        (Some "dmenu") SelectSource ["dmenu"] [] [DUMP_CALL] [mic_device]
        _ _ _) ("42 Headset Mic" +:+ NEWLINE) "42" 1%Z "" _ _ _ _);
      solve [vm_compute; reflexivity | discriminate].
Defined.

(** [wpctl] refuses the id and says so.  The run ends with exit status 0,
    and the message of [wpctl] is on the terminal. *)
Lemma setter_failure_reaches_terminal :
  main host_setter_complains (Some "dmenu") SelectSource [] =
    (Ok tt, [DUMP_CALL; DMENU_MIC_CALL; set_default_call "42"])
  ∧ terminal host_setter_complains
      (snd (main host_setter_complains (Some "dmenu") SelectSource [])) =
    WPCTL_COMPLAINT
  ∧ terminal host_setter_complains
      (snd (main host_setter_complains (Some "dmenu") SelectSource [])) ≠ "".
Proof. repeat split; vm_compute; (reflexivity || discriminate). Qed.

Lemma empty_list_still_prompts_witness :
  menu_text host_bare [] = ""
  ∧ ∃ r rest,
      subcommand host_bare SelectSource ["dmenu"] [] =
      (r, [DUMP_CALL] ++ mkCall ["dmenu"] (Some "") :: rest).
Proof.
  apply (empty_list_still_prompts host_bare SelectSource ["dmenu"] [] [DUMP_CALL]).
  vm_compute. reflexivity.
Defined.

Example empty_list_run :
  main host_bare (Some "dmenu") SelectSink [] =
  (Ok tt, [DUMP_CALL; mkCall ["dmenu"] (Some "")]).
Proof. vm_compute. reflexivity. Qed.

Lemma select_source_passes_choice_unparsed_witness :
  ∃ id,
    getitem0 (str_split SPACE ("Headset Mic" +:+ NEWLINE)) = Ok id
    ∧ snd (select_source host_odd_choice ["dmenu"] []) =
        [DUMP_CALL] ++ [mkCall ["dmenu"] (Some (menu_text host_odd_choice [mic_device]));
                        set_default_call id]
    ∧ fst (select_source host_odd_choice ["dmenu"] []) =
        match spawn host_odd_choice (set_default_call id) with
        | Exited _ _ => Ok tt
        | NotStarted => Raise OSError
        end.
Proof.
  apply (select_source_passes_choice_unparsed host_odd_choice ["dmenu"] []
           [DUMP_CALL] [mic_device] ("Headset Mic" +:+ NEWLINE));
    solve [vm_compute; reflexivity | discriminate].
Defined.

(** The picker answers with a line that has no id in front: no exception
    reaches the caller of [select_source]; the word before the first space
    goes to [wpctl], whose failure is caught. *)
Lemma select_source_odd_choice_returns :
  select_source host_odd_choice ["dmenu"] [] =
    (Ok tt, [DUMP_CALL; DMENU_MIC_CALL; set_default_call "Headset"])
  ∧ ∀ e, fst (select_source host_odd_choice ["dmenu"] []) ≠ Raise e.
Proof. split; [vm_compute; reflexivity | intros e; vm_compute; discriminate]. Qed.

(** C1 at a failing dump: [pw-dump] exits with status 1.  [select-source]
    ends with exit status 0 and shows nothing, where [select-sink] ends with
    the uncaught [CalledProcessError]. *)
Theorem select_source_swallows_dump_failure :
  spawn host_dump_fails DUMP_CALL = Exited 1 ""
  ∧ main host_dump_fails (Some "dmenu") SelectSource [] = (Ok tt, [DUMP_CALL])
  ∧ exit_status (fst (main host_dump_fails (Some "dmenu") SelectSource [])) = 0%Z
  ∧ error_shown (fst (main host_dump_fails (Some "dmenu") SelectSource [])) = false
  ∧ main host_dump_fails (Some "dmenu") SelectSink [] =
      (Raise CalledProcessError, [DUMP_CALL])
  ∧ exit_status (fst (main host_dump_fails (Some "dmenu") SelectSink [])) = 1%Z.
Proof. repeat split; vm_compute; reflexivity. Qed.

(** * Further properties of the script *)

(** ** The device parser, read backwards *)

(** X1: a device the parser returns was read from a mapping tagged as a node
    whose [info] and [props] are mappings: id and name are the entries of
    [props], the direction is the one of its media class, and [muted] and
    [volume] are unset. *)
Theorem parser_some_inv (node : pyval) (dev : AudioDevice.t) :
  audio_device_from_pw_node node = Ok (Some dev) →
  ∃ m info props cls,
    node = PDict m
    ∧ m !! "type" = Some (PStr NODE_TYPE)
    ∧ m !! "info" = Some (PDict info)
    ∧ info !! "props" = Some (PDict props)
    ∧ props !! "object.id" = Some (AudioDevice.id dev)
    ∧ props !! "node.description" = Some (AudioDevice.name dev)
    ∧ props !! "media.class" = Some cls
    ∧ ((cls = PStr "Audio/Sink" ∧ AudioDevice.direction dev = OUTPUT)
       ∨ (cls = PStr "Audio/Source" ∧ AudioDevice.direction dev = INPUT))
    ∧ AudioDevice.muted dev = None
    ∧ AudioDevice.volume dev = None.
Proof.
  destruct node as [| | | | |l|m]; try discriminate.
  unfold audio_device_from_pw_node. cbn [getitem].
  destruct (m !! "type") as [ty|] eqn:Hty; [|discriminate].
  cbn [mbind result_bind].
  destruct (py_eq_str ty NODE_TYPE) eqn:Htag; [|discriminate].
  apply py_eq_str_true in Htag. subst ty. cbn [negb].
  destruct (m !! "info") as [info|] eqn:Hinfo; [|discriminate].
  cbn [mbind result_bind].
  destruct info as [| | | | |l|info]; try discriminate. cbn [getitem].
  destruct (info !! "props") as [props|] eqn:Hprops; [|discriminate].
  cbn [mbind result_bind].
  destruct props as [| | | | |l|props]; try discriminate. cbn [getitem].
  destruct (props !! "object.id") as [id|] eqn:Hid; [|discriminate].
  cbn [mbind result_bind].
  destruct (props !! "node.description") as [name|] eqn:Hname; [|discriminate].
  cbn [mbind result_bind].
  destruct (props !! "media.class") as [cls|] eqn:Hcls; [|discriminate].
  cbn [mbind result_bind]. unfold match_media_class.
  destruct (py_eq_str cls "Audio/Sink") eqn:Hsink.
  - apply py_eq_str_true in Hsink. intros [= <-].
    exists m, info, props, cls. simpl. repeat split; auto.
  - destruct (py_eq_str cls "Audio/Source") eqn:Hsource; [|discriminate].
    apply py_eq_str_true in Hsource. intros [= <-].
    exists m, info, props, cls. simpl. repeat split; auto.
Qed.

Lemma parser_some_inv_witness :
  ∃ m info props cls,
    headset_mic = PDict m
    ∧ m !! "type" = Some (PStr NODE_TYPE)
    ∧ m !! "info" = Some (PDict info)
    ∧ info !! "props" = Some (PDict props)
    ∧ props !! "object.id" = Some (AudioDevice.id mic_device)
    ∧ props !! "node.description" = Some (AudioDevice.name mic_device)
    ∧ props !! "media.class" = Some cls
    ∧ ((cls = PStr "Audio/Sink" ∧ AudioDevice.direction mic_device = OUTPUT)
       ∨ (cls = PStr "Audio/Source" ∧ AudioDevice.direction mic_device = INPUT))
    ∧ AudioDevice.muted mic_device = None
    ∧ AudioDevice.volume mic_device = None.
Proof. apply (parser_some_inv headset_mic mic_device). reflexivity. Defined.

(** Subscripting raises [KeyError] or [TypeError], and the parser catches
    the first. *)
Lemma getitem_raises v key e :
  getitem v key = Raise e → e = KeyError ∨ e = TypeError.
Proof.
  destruct v; simpl; try (intros [= <-]; auto).
  destruct (m !! key); [discriminate | intros [= <-]; auto].
Qed.

Lemma parser_raise_is_type_error node e :
  audio_device_from_pw_node node = Raise e → e = TypeError.
Proof.
  unfold audio_device_from_pw_node, try_except.
  match goal with |- match ?body with _ => _ end = _ → _ =>
    assert (∀ e', body = Raise e' → e' = KeyError ∨ e' = TypeError) as Hbody;
    [|destruct body as [dev|e'] eqn:Hb; [discriminate|];
      destruct (Hbody e' eq_refl) as [-> | ->]; simpl;
      [discriminate | intros [= <-]; reflexivity]]
  end.
  intros e'.
  destruct (getitem node "type") as [ty|e0] eqn:Hty; simpl;
    [|intros [= <-]; exact (getitem_raises _ _ _ Hty)].
  destruct (negb (py_eq_str ty NODE_TYPE)); [discriminate|].
  destruct (getitem node "info") as [info|e0] eqn:Hinfo; simpl;
    [|intros [= <-]; exact (getitem_raises _ _ _ Hinfo)].
  destruct (getitem info "props") as [props|e0] eqn:Hprops; simpl;
    [|intros [= <-]; exact (getitem_raises _ _ _ Hprops)].
  destruct (getitem props "object.id") as [id|e0] eqn:Hid; simpl;
    [|intros [= <-]; exact (getitem_raises _ _ _ Hid)].
  destruct (getitem props "node.description") as [name|e0] eqn:Hname; simpl;
    [|intros [= <-]; exact (getitem_raises _ _ _ Hname)].
  destruct (getitem props "media.class") as [cls|e0] eqn:Hcls; simpl;
    [|intros [= <-]; exact (getitem_raises _ _ _ Hcls)].
  destruct (match_media_class cls); discriminate.
Qed.

(** X2: the only exception that leaves the parser is [TypeError], and it
    comes from subscripting something that is not a mapping: the record
    itself, or the [info] or the [props] of a record tagged as a node. *)
Theorem parser_raises_only_type_error (node : pyval) (e : exn) :
  audio_device_from_pw_node node = Raise e →
  e = TypeError
  ∧ ((∀ m, node ≠ PDict m)
     ∨ ∃ m, node = PDict m
         ∧ m !! "type" = Some (PStr NODE_TYPE)
         ∧ ((∃ v, m !! "info" = Some v ∧ ∀ info, v ≠ PDict info)
            ∨ ∃ info v, m !! "info" = Some (PDict info)
                ∧ info !! "props" = Some v ∧ ∀ props, v ≠ PDict props)).
Proof.
  destruct node as [| | | | |l|m];
    try (intros [= <-]; split; [reflexivity | left; discriminate]).
  unfold audio_device_from_pw_node. cbn [getitem].
  destruct (m !! "type") as [ty|] eqn:Hty; [|discriminate].
  cbn [mbind result_bind].
  destruct (py_eq_str ty NODE_TYPE) eqn:Htag; [|discriminate].
  apply py_eq_str_true in Htag. subst ty. cbn [negb].
  destruct (m !! "info") as [info|] eqn:Hinfo; [|discriminate].
  cbn [mbind result_bind].
  destruct info as [| | | | |l|info];
    try (intros [= <-]; split; [reflexivity|]; right; exists m;
         repeat split; auto; left; eexists; split; [eassumption | discriminate]).
  cbn [getitem].
  destruct (info !! "props") as [props|] eqn:Hprops; [|discriminate].
  cbn [mbind result_bind].
  destruct props as [| | | | |l|props];
    try (intros [= <-]; split; [reflexivity|]; right; exists m;
         repeat split; auto; right; eexists _, _;
         split; [eassumption | split; [eassumption | discriminate]]).
  cbn [getitem].
  destruct (props !! "object.id"); [|discriminate]. cbn [mbind result_bind].
  destruct (props !! "node.description"); [|discriminate]. cbn [mbind result_bind].
  destruct (props !! "media.class") as [cls|]; [|discriminate].
  cbn [mbind result_bind].
  destruct (match_media_class cls); discriminate.
Qed.

Lemma parser_raises_only_type_error_witness :
  TypeError = TypeError
  ∧ ((∀ m, scalar_info_node ≠ PDict m)
     ∨ ∃ m, scalar_info_node = PDict m
         ∧ m !! "type" = Some (PStr NODE_TYPE)
         ∧ ((∃ v, m !! "info" = Some v ∧ ∀ info, v ≠ PDict info)
            ∨ ∃ info v, m !! "info" = Some (PDict info)
                ∧ info !! "props" = Some v ∧ ∀ props, v ≠ PDict props)).
Proof. apply (parser_raises_only_type_error scalar_info_node TypeError). reflexivity. Defined.

(** ** The listing as a function of the dump *)

Lemma parse_nodes_cons node rest :
  parse_nodes (node :: rest) =
  match audio_device_from_pw_node node with
  | Raise e => Raise e
  | Ok dev =>
      match parse_nodes rest with
      | Raise e => Raise e
      | Ok devs => Ok (match dev with Some d => d :: devs | None => devs end)
      end
  end.
Proof.
  simpl. destruct (audio_device_from_pw_node node); [|reflexivity].
  simpl. destruct (parse_nodes rest); reflexivity.
Qed.

(** X3: the listing of a dump returns exactly when the parser raises on none
    of its nodes, and then it holds the devices of the nodes that parse to
    one, in the order of the dump. *)
Theorem parse_nodes_ok_iff (dump : list pyval) (devs : list AudioDevice.t) :
  parse_nodes dump = Ok devs ↔
  Forall (λ node, ∀ e, audio_device_from_pw_node node ≠ Raise e) dump
  ∧ devs = omap parsed dump.
Proof.
  revert devs. induction dump as [|node rest IH]; intros devs.
  - simpl. split.
    + intros [= <-]. split; [constructor | reflexivity].
    + intros [_ ->]. reflexivity.
  - rewrite parse_nodes_cons, Forall_cons. unfold parsed at 1. simpl.
    fold (parsed node). unfold parsed at 1.
    destruct (audio_device_from_pw_node node) as [dev|e].
    + destruct (parse_nodes rest) as [devs'|e'].
      * destruct (proj1 (IH devs') eq_refl) as [Hall ->].
        split.
        -- intros [= <-]. split; [split; [discriminate | exact Hall]|].
           destruct dev; reflexivity.
        -- intros [_ ->]. destruct dev; reflexivity.
      * split; [discriminate|]. intros [[_ Hall] _].
        specialize (proj2 (IH (omap parsed rest)) (conj Hall eq_refl)).
        discriminate.
    + split; [discriminate|]. intros [[Hnode _] _]. destruct (Hnode e eq_refl).
Qed.

(** The first exception of a listing is one of the parser. *)
Lemma parse_nodes_raises dump e : parse_nodes dump = Raise e → e = TypeError.
Proof.
  induction dump as [|node rest IH]; [discriminate|].
  rewrite parse_nodes_cons.
  destruct (audio_device_from_pw_node node) as [dev|e'] eqn:Hnode.
  - destruct (parse_nodes rest); [discriminate|]. intros [= ->]. auto.
  - intros [= ->]. exact (parser_raise_is_type_error node e Hnode).
Qed.

(** X4: listing two dumps one after the other is listing their
    concatenation: the devices of the first come first, and an exception of
    the first is raised before the second is looked at. *)
Theorem parse_nodes_app (dump1 dump2 : list pyval) :
  parse_nodes (dump1 ++ dump2) =
  match parse_nodes dump1 with
  | Raise e => Raise e
  | Ok devs1 =>
      match parse_nodes dump2 with
      | Raise e => Raise e
      | Ok devs2 => Ok (devs1 ++ devs2)
      end
  end.
Proof.
  induction dump1 as [|node rest IH].
  - simpl. destruct (parse_nodes dump2); reflexivity.
  - rewrite <- app_comm_cons, !parse_nodes_cons, IH.
    destruct (audio_device_from_pw_node node) as [dev|e]; [|reflexivity].
    destruct (parse_nodes rest) as [devs1|e]; [|reflexivity].
    destruct (parse_nodes dump2) as [devs2|e]; [|reflexivity].
    destruct dev; reflexivity.
Qed.

Lemma parse_nodes_strings (keys : list string) :
  parse_nodes (PStr <$> keys) = match keys with [] => Ok [] | _ => Raise TypeError end.
Proof. destruct keys; reflexivity. Qed.

Lemma py_iter_not_list v :
  (∀ l, v ≠ PList l) →
  py_iter v = Raise TypeError ∨ ∃ keys, py_iter v = Ok (PStr <$> keys).
Proof.
  intros Hv. destruct v as [| | | |s|l|m]; try (left; reflexivity).
  - right. exists ((λ c, String c EmptyString) <$> list_ascii_of_string s).
    simpl. rewrite <- list_fmap_compose. reflexivity.
  - destruct (Hv l eq_refl).
  - right. exists (fst <$> map_to_list m).
    simpl. rewrite <- list_fmap_compose. reflexivity.
Qed.

Section MoreLister.
Context (host : Host).

Lemma listing_decoded (out : string) (v : pyval) (log : list Call) :
  spawn host DUMP_CALL = Exited 0 out →
  loads host out = Some v →
  get_audio_devices host log =
  (match py_iter v with
   | Ok nodes => parse_nodes nodes
   | Raise e => Raise e
   end, log ++ [DUMP_CALL]).
Proof.
  intros Hspawn Hloads. unfold get_audio_devices. bind_step.
  rewrite (run_exit_zero host ["pw-dump"] None out) by (done || exact Hspawn).
  unfold mbind, M_bind, lift, json_loads. simpl. rewrite Hloads.
  destruct (py_iter v); reflexivity.
Qed.

(** X5: a dump that decodes to something other than a list never yields a
    device: iterating it gives strings at best, so the listing is empty (for
    an empty object or an empty string) or ends with a [TypeError]. *)
Theorem listing_of_non_array (out : string) (v : pyval) (log : list Call) :
  spawn host DUMP_CALL = Exited 0 out →
  loads host out = Some v →
  (∀ l, v ≠ PList l) →
  get_audio_devices host log = (Ok [], log ++ [DUMP_CALL])
  ∨ get_audio_devices host log = (Raise TypeError, log ++ [DUMP_CALL]).
Proof.
  intros Hspawn Hloads Hv. rewrite (listing_decoded out v log Hspawn Hloads).
  destruct (py_iter_not_list v Hv) as [-> | [keys ->]]; [right; reflexivity|].
  rewrite parse_nodes_strings. destruct keys; [left | right]; reflexivity.
Qed.

(** X6: whatever the host answers, the listing makes one call, [pw-dump]
    without input and with its output captured.  An exception that leaves
    it is the [OSError] or the [CalledProcessError] of that call, the
    exception [json.loads] raised on the output of a dump that exited with
    status 0, or the [TypeError] of iterating and parsing what was
    decoded. *)
Theorem listing_one_call (log : list Call) :
  ∃ r, get_audio_devices host log = (r, log ++ [DUMP_CALL])
       ∧ ∀ e, r = Raise e →
           e = OSError ∨ e = CalledProcessError ∨ e = TypeError
           ∨ ∃ out, spawn host DUMP_CALL = Exited 0 out
                    ∧ loads host out = None
                    ∧ e = decode_exn (loads_error host out).
Proof.
  unfold get_audio_devices. bind_step. unfold run.
  fold DUMP_CALL. change (mkCall ["pw-dump"] None) with DUMP_CALL.
  destruct (spawn host DUMP_CALL) as [rc out|] eqn:Hspawn;
    [|eexists; split; [reflexivity | intros e [= <-]; auto]].
  destruct (rc =? 0)%Z eqn:Hrc;
    [|eexists; split; [reflexivity | intros e [= <-]; auto]].
  apply Z.eqb_eq in Hrc. subst rc.
  unfold mbind, M_bind, lift, json_loads. simpl.
  destruct (loads host out) as [v|] eqn:Hloads.
  - destruct (py_iter v) as [nodes|e'] eqn:Hiter.
    + eexists. split; [reflexivity|]. intros e He.
      apply parse_nodes_raises in He. auto.
    + eexists. split; [reflexivity|]. intros e [= <-].
      destruct v; try discriminate; injection Hiter as <-; auto.
  - eexists. split; [reflexivity|]. intros e [= <-].
    right. right. right. exists out. auto.
Qed.
End MoreLister.

Lemma parse_nodes_ok_iff_witness :
  Forall (λ node, ∀ e, audio_device_from_pw_node node ≠ Raise e)
    [headset_mic; PDict port_record; speakers]
  ∧ [mic_device; speaker_device] = omap parsed [headset_mic; PDict port_record; speakers].
Proof.
  apply (proj1 (parse_nodes_ok_iff [headset_mic; PDict port_record; speakers]
                  [mic_device; speaker_device])).
  reflexivity.
Defined.

Lemma listing_of_non_array_witness :
  get_audio_devices (sample_host (Some (PInt 5)) (Exited 0 "5") NotStarted NotStarted
                       (fun _ => false)) [] = (Ok [], [] ++ [DUMP_CALL])
  ∨ get_audio_devices (sample_host (Some (PInt 5)) (Exited 0 "5") NotStarted NotStarted
                         (fun _ => false)) [] = (Raise TypeError, [] ++ [DUMP_CALL]).
Proof.
  apply (listing_of_non_array _ "5" (PInt 5) []);
    solve [vm_compute; reflexivity | discriminate].
Defined.

(** ** The calls of a run *)

Section Traces.
Context (host : Host).

Lemma listing_trace cmd log :
  ∃ r, listing host cmd log = (r, log ++ [DUMP_CALL]).
Proof.
  destruct (listing_logged host log) as (r & Hlist).
  destruct cmd; simpl;
    rewrite ?get_inputs_unfold, ?get_outputs_unfold, Hlist;
    destruct r; eauto.
Qed.

(** The two shapes of the [try] block: it ends with the picker's call and
    an exception, or the picker exited with status 0 and [wpctl] was called
    with the first field of its output. *)
Lemma prompt_trace menu text log :
  (∃ e, prompt_and_set host menu text log =
        (Raise e, log ++ [mkCall menu (Some text)]))
  ∨ (∃ r out id,
       menu ≠ []
       ∧ spawn host (mkCall menu (Some text)) = Exited 0 out
       ∧ getitem0 (str_split SPACE out) = Ok id
       ∧ prompt_and_set host menu text log =
         (r, log ++ [mkCall menu (Some text); set_default_call id])).
Proof.
  destruct menu as [|prog argv].
  { left. exists IndexError. reflexivity. }
  destruct (spawn host (mkCall (prog :: argv) (Some text))) as [rc out|] eqn:Hspawn.
  - destruct (Z.eq_dec rc 0%Z) as [-> | Hrc].
    + right. destruct (str_split_first_total SPACE out) as [id Hid].
      rewrite (prompt_chosen host (prog :: argv) text out id) by (done || assumption).
      pose proof (run_inherit_logged host (wpctl_set_default id)
                    (log ++ [mkCall (prog :: argv) (Some text)])) as Hlog.
      destruct (run_inherit host (wpctl_set_default id) _) as [[cp|e] l];
        simpl in Hlog; subst l; rewrite <- app_assoc; simpl;
        eexists _, out, id; repeat split; auto; discriminate.
    + left. exists CalledProcessError.
      apply (prompt_cancelled host (prog :: argv) text rc out); done.
  - left. exists OSError. unfold prompt_and_set. bind_step.
    rewrite (run_not_started host (prog :: argv) (Some text)) by done.
    reflexivity.
Qed.


(** X7: every run of a subcommand calls [pw-dump] first, then at most once
    the picker, then at most once [wpctl set-default]; the default-setter is
    called only after a picker that exited with status 0, and its argument is
    the first field of the picker's output. *)
Theorem subcommand_trace (cmd : Subcommand) (menu : list string) (log : list Call) :
  ∃ r rest,
    subcommand host cmd menu log = (r, log ++ DUMP_CALL :: rest)
    ∧ (rest = []
       ∨ (∃ text, rest = [mkCall menu (Some text)])
       ∨ (∃ text out id,
            rest = [mkCall menu (Some text); set_default_call id]
            ∧ menu ≠ []
            ∧ spawn host (mkCall menu (Some text)) = Exited 0 out
            ∧ getitem0 (str_split SPACE out) = Ok id)).
Proof.
  destruct (listing_trace cmd log) as ([devs|e] & Hlist).
  - rewrite (subcommand_listed host cmd menu log devs _ Hlist).
    unfold guarded_prompt, try_exceptM.
    destruct (prompt_trace menu (menu_text host devs) (log ++ [DUMP_CALL]))
      as [(e & ->) | (r & out & id & Hmenu & Hspawn & Hid & ->)].
    + rewrite <- app_assoc. simpl. unfold mret, M_ret.
      destruct (exn_eqb e CalledProcessError);
        eexists _, _; (split; [reflexivity|]); right; left; eauto.
    + rewrite <- app_assoc. simpl. unfold mret, M_ret.
      destruct r as [[]|e]; [|destruct (exn_eqb e CalledProcessError)];
        eexists _, _; (split; [reflexivity|]); right; right;
        exists (menu_text host devs), out, id; auto.
  - destruct cmd; simpl in Hlist |- *.
    + rewrite (select_source_listing_fails host menu log e _ Hlist). eauto.
    + rewrite (select_sink_listing_fails host menu log e _ Hlist). eauto.
Qed.

(** X8: when the picker answers with the line of a device whose id is an
    integer, followed by a newline, and [wpctl] accepts, the run calls
    [wpctl set-default] with the numeral of that id and ends with exit
    status 0. *)
Theorem chosen_device_becomes_default
    (menu_option : option string) (cmd : Subcommand) (menu : list string)
    (log log' : list Call) (devs : list AudioDevice.t)
    (z : Z) (name : pyval) (direction : Direction) (muted : option bool)
    (volume : option SpecFloat.spec_float) (out' : string) :
  startup host menu_option = Ok menu →
  menu ≠ [] →
  listing host cmd log = (Ok devs, log') →
  let dev := AudioDevice.mk (PInt z) name direction muted volume in
  let menu_call := mkCall menu (Some (menu_text host devs)) in
  spawn host menu_call = Exited 0 (menu_line host dev +:+ NEWLINE) →
  spawn host (set_default_call (str_int z)) = Exited 0 out' →
  main host menu_option cmd log =
    (Ok tt, log' ++ [menu_call; set_default_call (str_int z)])
  ∧ exit_status (fst (main host menu_option cmd log)) = 0%Z.
Proof.
  intros Hstart Hmenu Hlist dev menu_call Hpick Hset.
  rewrite (main_started host menu_option cmd menu log Hstart).
  rewrite (subcommand_listed host cmd menu log devs log' Hlist).
  unfold guarded_prompt, try_exceptM.
  rewrite (prompt_chosen host menu _ _ (str_int z) log' Hmenu Hpick).
  - rewrite (run_inherit_exit_zero host (wpctl_set_default (str_int z)) out')
      by (assumption || discriminate).
    simpl. rewrite <- app_assoc. auto.
  - subst dev. rewrite menu_line_int, str_app_assoc, str_app_cons.
    rewrite str_split_prefix by apply str_int_no_space. reflexivity.
Qed.

Lemma prompt_not_started menu text log :
  menu ≠ [] →
  spawn host (mkCall menu (Some text)) = NotStarted →
  prompt_and_set host menu text log =
  (Raise OSError, log ++ [mkCall menu (Some text)]).
Proof.
  intros Hmenu Hspawn. unfold prompt_and_set. bind_step.
  rewrite (run_not_started host menu (Some text) log Hmenu Hspawn). reflexivity.
Qed.

(** X9: a program that cannot be started is not a silent no-op.  When the
    picker cannot be started, or the picker answered and [wpctl] cannot be
    started, the [OSError] leaves either subcommand and the exit status
    is 1. *)
Theorem unstartable_program_is_fatal
    (menu_option : option string) (cmd : Subcommand) (menu : list string)
    (log log' : list Call) (devs : list AudioDevice.t) :
  startup host menu_option = Ok menu →
  menu ≠ [] →
  listing host cmd log = (Ok devs, log') →
  let menu_call := mkCall menu (Some (menu_text host devs)) in
  (spawn host menu_call = NotStarted →
     main host menu_option cmd log = (Raise OSError, log' ++ [menu_call])
     ∧ exit_status (fst (main host menu_option cmd log)) = 1%Z)
  ∧ (∀ out id,
     spawn host menu_call = Exited 0 out →
     getitem0 (str_split SPACE out) = Ok id →
     spawn host (set_default_call id) = NotStarted →
     main host menu_option cmd log =
       (Raise OSError, log' ++ [menu_call; set_default_call id])
     ∧ exit_status (fst (main host menu_option cmd log)) = 1%Z).
Proof.
  intros Hstart Hmenu Hlist menu_call.
  rewrite (main_started host menu_option cmd menu log Hstart).
  rewrite (subcommand_listed host cmd menu log devs log' Hlist).
  unfold guarded_prompt, try_exceptM. split.
  - intros Hspawn.
    rewrite (prompt_not_started menu _ log' Hmenu Hspawn). simpl. auto.
  - intros out id Hspawn Hid Hset.
    rewrite (prompt_chosen host menu _ out id) by assumption.
    rewrite (run_inherit_not_started host (wpctl_set_default id))
      by (assumption || discriminate).
    simpl. rewrite <- app_assoc. auto.
Qed.

(** X10: with an empty argument vector for the picker (as [--menu ""]
    gives), either subcommand lists the devices and then fails with the
    [IndexError] of [run]; nothing catches it and no default is set. *)
Theorem empty_menu_command_is_fatal (cmd : Subcommand)
    (log log' : list Call) (devs : list AudioDevice.t) :
  listing host cmd log = (Ok devs, log') →
  subcommand host cmd [] log =
    (Raise IndexError, log' ++ [mkCall [] (Some (menu_text host devs))])
  ∧ exit_status (fst (subcommand host cmd [] log)) = 1%Z.
Proof.
  intros Hlist.
  rewrite (subcommand_listed host cmd [] log devs log' Hlist).
  split; reflexivity.
Qed.
End Traces.

(** X11: with [--menu] given, the search for a picker plays no part: two
    hosts that differ only in what [which] finds run the program alike. *)
Theorem menu_option_overrides_detection (host1 host2 : Host) (m : string)
    (cmd : Subcommand) (log : list Call) :
  spawn host1 = spawn host2 →
  loads host1 = loads host2 →
  loads_error host1 = loads_error host2 →
  shlex_split host1 = shlex_split host2 →
  repr host1 = repr host2 →
  main host1 (Some m) cmd log = main host2 (Some m) cmd log.
Proof.
  destruct host1 as [spawn1 which1 loads1 why1 split1 repr1 stderr1].
  destruct host2 as [spawn2 which2 loads2 why2 split2 repr2 stderr2].
  simpl. intros <- <- <- <- <-.
  unfold main, startup, resolve_menu, audiomenu. simpl.
  destruct (split1 m) as [argv|]; [|reflexivity].
  destruct cmd; reflexivity.
Qed.

Lemma chosen_device_becomes_default_witness :
  main host_chosen (Some "dmenu") SelectSource [] =
    (Ok tt, [DUMP_CALL] ++ [mkCall ["dmenu"] (Some (menu_text host_chosen [mic_device]));
                            set_default_call (str_int 42)])
  ∧ exit_status (fst (main host_chosen (Some "dmenu") SelectSource [])) = 0%Z.
Proof.
  refine (chosen_device_becomes_default host_chosen (Some "dmenu") SelectSource
            ["dmenu"] [] [DUMP_CALL] [mic_device] 42 (PStr "Headset Mic") INPUT
            None None "" _ _ _ _ _);
    solve [vm_compute; reflexivity | discriminate].
Defined.

Lemma unstartable_program_is_fatal_witness :
  (main host_no_picker (Some "dmenu") SelectSink [] =
     (Raise OSError, [DUMP_CALL] ++ [mkCall ["dmenu"] (Some (menu_text host_no_picker [speaker_device]))])
   ∧ exit_status (fst (main host_no_picker (Some "dmenu") SelectSink [])) = 1%Z)
  ∧ (main host_no_wpctl (Some "dmenu") SelectSource [] =
       (Raise OSError, [DUMP_CALL] ++ [mkCall ["dmenu"] (Some (menu_text host_no_wpctl [mic_device]));
                                       set_default_call "42"])
     ∧ exit_status (fst (main host_no_wpctl (Some "dmenu") SelectSource [])) = 1%Z).
Proof.
  split.
  - refine (proj1 (unstartable_program_is_fatal host_no_picker (Some "dmenu")
        SelectSink ["dmenu"] [] [DUMP_CALL] [speaker_device] _ _ _) _);
      solve [vm_compute; reflexivity | discriminate].
  - refine (proj2 (unstartable_program_is_fatal host_no_wpctl (Some "dmenu")
        SelectSource ["dmenu"] [] [DUMP_CALL] [mic_device] _ _ _)
        ("42 Headset Mic" +:+ NEWLINE) "42" _ _ _);
      solve [vm_compute; reflexivity | discriminate].
Defined.

Lemma empty_menu_command_is_fatal_witness :
  subcommand host_cancel SelectSource [] [] =
    (Raise IndexError, [DUMP_CALL] ++ [mkCall [] (Some (menu_text host_cancel [mic_device]))])
  ∧ exit_status (fst (subcommand host_cancel SelectSource [] [])) = 1%Z.
Proof.
  apply (empty_menu_command_is_fatal host_cancel SelectSource [] [DUMP_CALL] [mic_device]).
  vm_compute. reflexivity.
Defined.

Lemma menu_option_overrides_detection_witness :
  main host_no_picker (Some "dmenu") SelectSink [] =
  main (sample_host (Some two_devices) (Exited 0 "[...]") NotStarted (Exited 0 "")
          (fun _ => true)) (Some "dmenu") SelectSink [].
Proof.
  apply menu_option_overrides_detection; reflexivity.
Defined.

Example subcommand_trace_chosen :
  main host_chosen (Some "dmenu") SelectSource [] =
  (Ok tt, [DUMP_CALL; DMENU_MIC_CALL; set_default_call "42"]).
Proof. vm_compute. reflexivity. Qed.

(** ** Splitting and joining *)

Lemma concat_cons_cons sep (x y : string) (rest : list string) :
  String.concat sep (x :: y :: rest) = x +:+ sep +:+ String.concat sep (y :: rest).
Proof. reflexivity. Qed.

(** X12: joining the fields of [s.split(sep)] with the separator gives [s]
    back, and no field holds the separator. *)
Theorem str_split_join (sep : ascii) (s : string) :
  String.concat (String sep EmptyString) (str_split sep s) = s
  ∧ Forall (λ field, str_contains sep field = false) (str_split sep s).
Proof.
  induction s as [|c rest [IHjoin IHfields]].
  - split; [reflexivity|]. repeat constructor.
  - simpl. destruct (Ascii.eqb c sep) eqn:Hc.
    + apply Ascii.eqb_eq in Hc. subst c. split.
      * pose proof (str_split_nonempty sep rest) as Hne.
        destruct (str_split sep rest) as [|field fields]; [congruence|].
        rewrite concat_cons_cons, IHjoin. reflexivity.
      * constructor; [reflexivity | exact IHfields].
    + pose proof (str_split_nonempty sep rest) as Hne.
      destruct (str_split sep rest) as [|field fields]; [congruence|].
      apply Forall_cons in IHfields as [Hfield Hfields]. split.
      * destruct fields as [|field' fields].
        -- simpl in IHjoin |- *. congruence.
        -- rewrite concat_cons_cons in IHjoin |- *.
           rewrite str_app_cons, IHjoin. reflexivity.
      * constructor; [|exact Hfields]. simpl. rewrite Hc, Hfield. reflexivity.
Qed.

Lemma str_split_whole sep s :
  str_contains sep s = false → str_split sep s = [s].
Proof.
  induction s as [|c rest IH]; [reflexivity|]. simpl.
  intros [Hc Hrest]%orb_false_elim. rewrite Hc, (IH Hrest). reflexivity.
Qed.

(** Splitting undoes joining when no field holds the separator. *)
Lemma str_split_concat sep (fields : list string) :
  fields ≠ [] →
  Forall (λ field, str_contains sep field = false) fields →
  str_split sep (String.concat (String sep EmptyString) fields) = fields.
Proof.
  induction fields as [|field rest IH]; [congruence|]. intros _ Hall.
  apply Forall_cons in Hall as [Hfield Hrest].
  destruct rest as [|field' rest].
  - simpl. apply str_split_whole, Hfield.
  - rewrite concat_cons_cons, str_app_cons, str_app_nil.
    rewrite (str_split_prefix sep field _ Hfield), IH by (done || assumption).
    reflexivity.
Qed.

Section MenuText.
Context (host : Host).

(** X13: the text given to the picker has one line per device, in the order
    of the list, as long as there is a device and no rendered line holds a
    line feed itself: splitting the text at the line feeds gives back the
    lines. *)
Theorem menu_text_lines (devs : list AudioDevice.t) :
  devs ≠ [] →
  Forall (λ dev, str_contains LINE_FEED (menu_line host dev) = false) devs →
  str_split LINE_FEED (menu_text host devs) = menu_line host <$> devs.
Proof.
  intros Hne Hall. unfold menu_text.
  change NEWLINE with (String LINE_FEED EmptyString).
  apply str_split_concat.
  - destruct devs; [congruence | discriminate].
  - apply Forall_fmap. exact Hall.
Qed.
End MenuText.

Lemma menu_text_lines_witness :
  str_split LINE_FEED (menu_text host_cancel [mic_device; speaker_device]) =
  menu_line host_cancel <$> [mic_device; speaker_device].
Proof.
  apply menu_text_lines; [discriminate|].
  repeat constructor.
Defined.

Example menu_text_two_devices :
  menu_text host_cancel [mic_device; speaker_device] =
  "42 Headset Mic" +:+ NEWLINE +:+ "57 Built-in Speakers".
Proof. reflexivity. Qed.

(** ** The volume of a device: properties *)

Lemma str_removeprefix_app (prefix s : string) :
  str_removeprefix prefix (prefix +:+ s) = s.
Proof.
  unfold str_removeprefix.
  assert (str_after_prefix prefix (prefix +:+ s) = Some s) as ->; [|reflexivity].
  induction prefix as [|p prefix IH]; [reflexivity|].
  rewrite str_app_cons. simpl. rewrite Ascii.eqb_refl. exact IH.
Qed.

Lemma has_volume_iff dev :
  has_volume dev = true ↔
  AudioDevice.volume dev ≠ None ∧ AudioDevice.muted dev ≠ None.
Proof.
  unfold has_volume.
  destruct (AudioDevice.volume dev), (AudioDevice.muted dev);
    split; intros H; try discriminate H; try reflexivity;
    try (split; discriminate); destruct H as [H1 H2]; congruence.
Qed.

Section VolumeProperties.
Context (host : Host) (py_float : string -> option SpecFloat.spec_float).


Lemma fetch_volume_cached self log :
  has_volume self = true → fetch_volume host py_float self log = (Fetched, self, log).
Proof.
  unfold has_volume, fetch_volume.
  destruct (AudioDevice.volume self), (AudioDevice.muted self);
    (discriminate || reflexivity).
Qed.

(** With a reading missing, the method is the call and what is stored. *)
Lemma fetch_volume_asks self log :
  has_volume self = false →
  fetch_volume host py_float self log =
  match run host (wpctl_get_volume host self) None log with
  | (Raise e, log') => (FetchRaised (Library e), self, log')
  | (Ok output, log') =>
      (store_reading py_float self
         (str_split SPACE (str_removeprefix "Volume: " (cp_stdout output))), log')
  end.
Proof.
  unfold has_volume, fetch_volume.
  destruct (AudioDevice.volume self), (AudioDevice.muted self);
    (discriminate || reflexivity).
Qed.

Lemma store_reading_identity self fields r self' :
  store_reading py_float self fields = (r, self') →
  AudioDevice.id self' = AudioDevice.id self
  ∧ AudioDevice.name self' = AudioDevice.name self
  ∧ AudioDevice.direction self' = AudioDevice.direction self.
Proof.
  unfold store_reading.
  destruct fields as [|volume [|mute [|more fields]]];
    try (intros [= <- <-]; auto).
  - destruct (py_float volume); intros [= <- <-]; auto.
  - destruct (String.eqb mute "[MUTED]"); [|intros [= <- <-]; auto].
    destruct (py_float volume); intros [= <- <-]; auto.
Qed.

Lemma store_reading_fetched self fields self' :
  store_reading py_float self fields = (Fetched, self') →
  has_volume self' = true.
Proof.
  unfold store_reading.
  destruct fields as [|volume [|mute [|more fields]]]; try discriminate.
  - destruct (py_float volume); [|discriminate]. intros [= <-]. reflexivity.
  - destruct (String.eqb mute "[MUTED]"); [|discriminate].
    destruct (py_float volume); [|discriminate]. intros [= <-]. reflexivity.
Qed.

(** X14: [fetch_volume] never changes the id, the name or the direction of
    its object; it makes no call or the one call
    [wpctl get-volume <str(id)>]; and the object changes only when that
    call exited with status 0. *)
Theorem fetch_volume_effect (self self' : AudioDevice.t)
    (log log' : list Call) (r : fetch_result) :
  fetch_volume host py_float self log = (r, self', log') →
  (AudioDevice.id self' = AudioDevice.id self
   ∧ AudioDevice.name self' = AudioDevice.name self
   ∧ AudioDevice.direction self' = AudioDevice.direction self)
  ∧ (log' = log ∨ log' = log ++ [get_volume_call host self])
  ∧ (self' ≠ self →
     log' = log ++ [get_volume_call host self]
     ∧ ∃ out, spawn host (get_volume_call host self) = Exited 0 out).
Proof.
  assert (∀ l, (AudioDevice.id self = AudioDevice.id self
                ∧ AudioDevice.name self = AudioDevice.name self
                ∧ AudioDevice.direction self = AudioDevice.direction self)
               ∧ (l = log ∨ l = log ++ [get_volume_call host self])
               ∧ (self ≠ self →
                  l = log ++ [get_volume_call host self]
                  ∧ ∃ out, spawn host (get_volume_call host self) = Exited 0 out)
               ↔ (l = log ∨ l = log ++ [get_volume_call host self])) as Hsame.
  { intros l. split; [tauto|]. intros Hl.
    split; [auto|]. split; [exact Hl|]. intros Hne. destruct (Hne eq_refl). }
  destruct (has_volume self) eqn:Hhas.
  - rewrite fetch_volume_cached by exact Hhas. intros [= <- <- <-].
    apply Hsame. left. reflexivity.
  - rewrite fetch_volume_asks by exact Hhas.
    unfold run, wpctl_get_volume. cbv iota.
    fold (wpctl_get_volume host self). fold (get_volume_call host self).
    destruct (spawn host (get_volume_call host self)) as [rc out|] eqn:Hspawn.
    + destruct (rc =? 0)%Z eqn:Hrc.
      * apply Z.eqb_eq in Hrc. subst rc. cbn [cp_stdout].
        destruct (store_reading py_float self _) as [r0 self0] eqn:Hstore.
        intros [= <- <- <-].
        split; [exact (store_reading_identity _ _ _ _ Hstore)|].
        split; [right; reflexivity|]. intros _. eauto.
      * intros [= <- <- <-]. apply Hsame. right. reflexivity.
    + intros [= <- <- <-]. apply Hsame. right. reflexivity.
Qed.

Lemma fetch_volume_fetched self self' log log' :
  fetch_volume host py_float self log = (Fetched, self', log') →
  has_volume self' = true.
Proof.
  intros Hfetch. destruct (has_volume self) eqn:Hself.
  - rewrite fetch_volume_cached in Hfetch by exact Hself.
    injection Hfetch as <- <-. exact Hself.
  - rewrite fetch_volume_asks in Hfetch by exact Hself.
    destruct (run host (wpctl_get_volume host self) None log) as [[output|e] l];
      [|discriminate].
    destruct (store_reading py_float self _) as [r0 self0] eqn:Hstore.
    injection Hfetch as -> <- <-.
    exact (store_reading_fetched _ _ _ Hstore).
Qed.

(** X16: after a call of [fetch_volume] that returned, both readings are
    set, and calling it again returns at once: same object, no new call. *)
Theorem fetch_volume_once (self self' : AudioDevice.t) (log log' : list Call) :
  fetch_volume host py_float self log = (Fetched, self', log') →
  (AudioDevice.volume self' ≠ None ∧ AudioDevice.muted self' ≠ None)
  ∧ fetch_volume host py_float self' log' = (Fetched, self', log').
Proof.
  intros Hfetch. pose proof (fetch_volume_fetched _ _ _ _ Hfetch) as Hhas.
  split; [apply has_volume_iff, Hhas | apply fetch_volume_cached, Hhas].
Qed.

(** What a call of [wpctl get-volume] that exited with status 0 leaves. *)
Lemma fetch_volume_output self log out :
  has_volume self = false →
  spawn host (get_volume_call host self) = Exited 0 out →
  fetch_volume host py_float self log =
  (store_reading py_float self
     (str_split SPACE (str_removeprefix "Volume: " out)),
   log ++ [get_volume_call host self]).
Proof.
  intros Hhas Hspawn. rewrite fetch_volume_asks by exact Hhas.
  rewrite (run_exit_zero host (wpctl_get_volume host self) None out)
    by (discriminate || exact Hspawn).
  reflexivity.
Qed.

Lemma fields_unmuted v : str_contains SPACE v = false →
  str_split SPACE (str_removeprefix "Volume: " ("Volume: " +:+ v)) = [v].
Proof. intros Hv. rewrite str_removeprefix_app. apply str_split_whole, Hv. Qed.

Lemma fields_two v mute :
  str_contains SPACE v = false → str_contains SPACE mute = false →
  str_split SPACE (str_removeprefix "Volume: " ("Volume: " +:+ v +:+ " " +:+ mute))
  = [v; mute].
Proof.
  intros Hv Hmute. rewrite str_removeprefix_app.
  change (" " +:+ mute) with (String SPACE mute).
  rewrite (str_split_prefix SPACE v mute Hv), (str_split_whole SPACE mute Hmute).
  reflexivity.
Qed.

(** X17: a reading [Volume: <v>] stores [muted = False] and the level
    [float(v)]; a reading [Volume: <v> [MUTED]] stores [muted = True] and the
    level.  Nothing else of the object changes and one call is made. *)
Theorem fetch_volume_reads (self : AudioDevice.t) (log : list Call)
    (v : string) (level : SpecFloat.spec_float) :
  has_volume self = false →
  str_contains SPACE v = false →
  py_float v = Some level →
  (spawn host (get_volume_call host self) = Exited 0 ("Volume: " +:+ v) →
   fetch_volume host py_float self log =
   (Fetched,
    AudioDevice.mk (AudioDevice.id self) (AudioDevice.name self)
      (AudioDevice.direction self) (Some false) (Some level),
    log ++ [get_volume_call host self]))
  ∧ (spawn host (get_volume_call host self) =
       Exited 0 ("Volume: " +:+ v +:+ " " +:+ "[MUTED]") →
     fetch_volume host py_float self log =
     (Fetched,
      AudioDevice.mk (AudioDevice.id self) (AudioDevice.name self)
        (AudioDevice.direction self) (Some true) (Some level),
      log ++ [get_volume_call host self])).
Proof.
  intros Hhas Hv Hlevel. split; intros Hspawn;
    rewrite (fetch_volume_output self log _ Hhas Hspawn).
  - rewrite (fields_unmuted v Hv). unfold store_reading. rewrite Hlevel.
    reflexivity.
  - rewrite (fields_two v "[MUTED]" Hv eq_refl). unfold store_reading.
    rewrite Hlevel. reflexivity.
Qed.

(** X18: [muted] is assigned before the number is read.  When [float]
    rejects the number, the [ValueError] leaves the object with the new
    [muted] and the old [volume]. *)
Theorem fetch_volume_bad_number (self : AudioDevice.t) (log : list Call)
    (v : string) :
  has_volume self = false →
  str_contains SPACE v = false →
  py_float v = None →
  (spawn host (get_volume_call host self) = Exited 0 ("Volume: " +:+ v) →
   fetch_volume host py_float self log =
   (FetchRaised (Library ValueError),
    AudioDevice.mk (AudioDevice.id self) (AudioDevice.name self)
      (AudioDevice.direction self) (Some false) (AudioDevice.volume self),
    log ++ [get_volume_call host self]))
  ∧ (spawn host (get_volume_call host self) =
       Exited 0 ("Volume: " +:+ v +:+ " " +:+ "[MUTED]") →
     fetch_volume host py_float self log =
     (FetchRaised (Library ValueError),
      AudioDevice.mk (AudioDevice.id self) (AudioDevice.name self)
        (AudioDevice.direction self) (Some true) (AudioDevice.volume self),
      log ++ [get_volume_call host self])).
Proof.
  intros Hhas Hv Hlevel. split; intros Hspawn;
    rewrite (fetch_volume_output self log _ Hhas Hspawn).
  - rewrite (fields_unmuted v Hv). unfold store_reading. rewrite Hlevel.
    reflexivity.
  - rewrite (fields_two v "[MUTED]" Hv eq_refl). unfold store_reading.
    rewrite Hlevel. reflexivity.
Qed.

(** X19: a reading of another form leaves the object as it was.  With two
    fields of which the second is not exactly [[MUTED]] (a line feed behind
    it is enough) the [assert] fails; with three fields or more the
    [ValueError] of the last case is raised. *)
Theorem fetch_volume_malformed (self : AudioDevice.t) (log : list Call)
    (v second : string) :
  has_volume self = false →
  str_contains SPACE v = false →
  str_contains SPACE second = false →
  (second ≠ "[MUTED]" →
   spawn host (get_volume_call host self) =
     Exited 0 ("Volume: " +:+ v +:+ " " +:+ second) →
   fetch_volume host py_float self log =
   (FetchRaised AssertionError, self, log ++ [get_volume_call host self]))
  ∧ (∀ more,
     spawn host (get_volume_call host self) =
       Exited 0 ("Volume: " +:+ v +:+ " " +:+ second +:+ " " +:+ more) →
     fetch_volume host py_float self log =
     (FetchRaised (Library ValueError), self, log ++ [get_volume_call host self])).
Proof.
  intros Hhas Hv Hsecond. split.
  - intros Hne Hspawn. rewrite (fetch_volume_output self log _ Hhas Hspawn).
    rewrite (fields_two v second Hv Hsecond). unfold store_reading.
    apply String.eqb_neq in Hne. rewrite Hne. reflexivity.
  - intros more Hspawn. rewrite (fetch_volume_output self log _ Hhas Hspawn).
    rewrite str_removeprefix_app.
    change (" " +:+ second +:+ " " +:+ more)
      with (String SPACE (second +:+ String SPACE more)).
    rewrite (str_split_prefix SPACE v _ Hv), (str_split_prefix SPACE second _ Hsecond).
    pose proof (str_split_nonempty SPACE more) as Hne.
    destruct (str_split SPACE more); [congruence | reflexivity].
Qed.

(** What [fetch_volume] keeps of its object and adds to the log. *)
Lemma fetch_volume_frame self log r self' log' :
  fetch_volume host py_float self log = (r, self', log') →
  AudioDevice.id self' = AudioDevice.id self
  ∧ AudioDevice.name self' = AudioDevice.name self
  ∧ AudioDevice.direction self' = AudioDevice.direction self
  ∧ (log' = log ∨ log' = log ++ [get_volume_call host self]).
Proof.
  destruct (has_volume self) eqn:Hhas.
  - rewrite fetch_volume_cached by exact Hhas. intros [= <- <- <-]. auto.
  - rewrite fetch_volume_asks by exact Hhas.
    pose proof (run_logged host (wpctl_get_volume host self) None log) as Hlog.
    destruct (run host (wpctl_get_volume host self) None log) as [[output|e] l].
    + simpl in Hlog. subst l.
      destruct (store_reading py_float self _) as [r0 self0] eqn:Hstore.
      intros [= <- <- <-].
      destruct (store_reading_identity _ _ _ _ Hstore) as (? & ? & ?). auto.
    + simpl in Hlog. subst l. intros [= <- <- <-]. auto.
Qed.

Lemma get_volume_call_id self self' :
  AudioDevice.id self' = AudioDevice.id self →
  get_volume_call host self' = get_volume_call host self.
Proof. unfold get_volume_call, wpctl_get_volume. intros ->. reflexivity. Qed.

(** X15: [populate_volume] changes no id, name or direction in the store
    and no object that is not in the list.  It only appends to the log, at
    most one call for each entry of the list, each of them the
    [wpctl get-volume] call of a listed object. *)
Theorem populate_volume_frame (devices : list nat)
    (objects objects' : nat -> AudioDevice.t) (log log' : list Call)
    (r : fetch_result) :
  populate_volume host py_float devices objects log = (r, objects', log') →
  (∀ ref, AudioDevice.id (objects' ref) = AudioDevice.id (objects ref)
          ∧ AudioDevice.name (objects' ref) = AudioDevice.name (objects ref)
          ∧ AudioDevice.direction (objects' ref) = AudioDevice.direction (objects ref))
  ∧ (∀ ref, ref ∉ devices → objects' ref = objects ref)
  ∧ ∃ calls,
      log' = log ++ calls
      ∧ (List.length calls ≤ List.length devices)%nat
      ∧ Forall (λ call, ∃ ref, ref ∈ devices
                               ∧ call = get_volume_call host (objects ref)) calls.
Proof.
  revert objects log.
  induction devices as [|dev rest IH]; intros objects log.
  - simpl. intros [= <- <- <-]. repeat split; auto.
    exists []. rewrite app_nil_r. repeat split; auto.
  - simpl.
    destruct (fetch_volume host py_float (objects dev) log)
      as [[r1 self1] log1] eqn:Hfetch.
    destruct (fetch_volume_frame _ _ _ _ _ Hfetch) as (Hid & Hname & Hdir & Hlog1).
    assert (∀ ref, AudioDevice.id ((<[dev:=self1]> objects) ref) = AudioDevice.id (objects ref)
                   ∧ AudioDevice.name ((<[dev:=self1]> objects) ref) = AudioDevice.name (objects ref)
                   ∧ AudioDevice.direction ((<[dev:=self1]> objects) ref)
                     = AudioDevice.direction (objects ref)) as Hstep.
    { intros ref. destruct (decide (dev = ref)) as [<-|Hne].
      - rewrite fn_lookup_insert. auto.
      - rewrite fn_lookup_insert_ne by exact Hne. auto. }
    assert (∀ ref, ref ∉ dev :: rest → (<[dev:=self1]> objects) ref = objects ref)
      as Hout.
    { intros ref Hnot. apply fn_lookup_insert_ne. intros ->. apply Hnot. left. }
    assert (∃ calls1, log1 = log ++ calls1 ∧ (List.length calls1 ≤ 1)%nat
                      ∧ Forall (λ call, call = get_volume_call host (objects dev)) calls1)
      as (calls1 & -> & Hlen1 & Hcalls1).
    { destruct Hlog1 as [-> | ->].
      - exists []. rewrite app_nil_r. repeat split; auto.
      - exists [get_volume_call host (objects dev)]. repeat split; auto. }
    assert (Forall (λ call, ∃ ref, ref ∈ dev :: rest
                                   ∧ call = get_volume_call host (objects ref)) calls1)
      as Hcalls1'.
    { eapply Forall_impl; [exact Hcalls1|]. intros call ->.
      exists dev. split; [left | reflexivity]. }
    destruct r1 as [|e].
    + intros Hrest. destruct (IH _ _ Hrest) as (Hkeep & Hother & calls2 & -> & Hlen2 & Hcalls2).
      split; [|split].
      * intros ref. destruct (Hkeep ref) as (-> & -> & ->). apply Hstep.
      * intros ref Hnot. rewrite Hother by (intros Hin; apply Hnot; right; exact Hin).
        apply Hout, Hnot.
      * exists (calls1 ++ calls2). rewrite app_assoc. split; [reflexivity|].
        split; [rewrite length_app; simpl; lia|].
        apply Forall_app. split; [exact Hcalls1'|].
        eapply Forall_impl; [exact Hcalls2|]. intros call (ref & Hin & ->).
        exists ref. split; [right; exact Hin|].
        apply get_volume_call_id, Hstep.
    + intros [= <- <- <-]. split; [exact Hstep|]. split; [exact Hout|].
      exists calls1. repeat split; auto. simpl. lia.
Qed.

(** X20: when [populate_volume] returns, every object of the list has both
    readings, and so has every object that had them before. *)
Theorem populate_volume_complete (devices : list nat)
    (objects objects' : nat -> AudioDevice.t) (log log' : list Call) :
  populate_volume host py_float devices objects log = (Fetched, objects', log') →
  ∀ ref, ref ∈ devices ∨ has_volume (objects ref) = true →
         has_volume (objects' ref) = true.
Proof.
  revert objects log.
  induction devices as [|dev rest IH]; intros objects log.
  - simpl. intros [= <- <-] ref [Hin | Hhas]; [inversion Hin | exact Hhas].
  - simpl.
    destruct (fetch_volume host py_float (objects dev) log)
      as [[[|e] self1] log1] eqn:Hfetch; [|discriminate].
    pose proof (fetch_volume_fetched _ _ _ _ Hfetch) as Hself1.
    intros Hrest ref Href. apply (IH _ _ Hrest).
    destruct (decide (dev = ref)) as [<-|Hne].
    + right. rewrite fn_lookup_insert. exact Hself1.
    + rewrite fn_lookup_insert_ne by exact Hne.
      destruct Href as [Hin | Hhas]; [|right; exact Hhas].
      left. apply elem_of_cons in Hin as [-> | Hin]; [congruence | exact Hin].
Qed.

(** X21: on a list of objects that all have both readings,
    [populate_volume] starts no process and changes no object. *)
Theorem populate_volume_nothing_to_do (devices : list nat)
    (objects : nat -> AudioDevice.t) (log : list Call) :
  (∀ ref, ref ∈ devices → has_volume (objects ref) = true) →
  ∃ objects',
    populate_volume host py_float devices objects log = (Fetched, objects', log)
    ∧ ∀ ref, objects' ref = objects ref.
Proof.
  revert objects.
  induction devices as [|dev rest IH]; intros objects Hall.
  - exists objects. split; reflexivity.
  - simpl. rewrite fetch_volume_cached by (apply Hall; left).
    assert (∀ ref, (<[dev:=objects dev]> objects) ref = objects ref) as Hsame.
    { intros ref. destruct (decide (dev = ref)) as [<-|Hne].
      - apply fn_lookup_insert.
      - apply fn_lookup_insert_ne, Hne. }
    destruct (IH (<[dev:=objects dev]> objects)) as (objects' & -> & Hobjects').
    { intros ref Hin. rewrite Hsame. apply Hall. right. exact Hin. }
    exists objects'. split; [reflexivity|].
    intros ref. rewrite Hobjects'. apply Hsame.
Qed.
End VolumeProperties.

(** ** The volume of a device on the sample hosts *)

Example fetch_volume_half :
  fetch_volume host_half sample_float mic_device [] =
  (Fetched, read_mic_device, [GET_VOLUME_MIC_CALL]).
Proof. vm_compute. reflexivity. Qed.

(** An object listed twice is asked once. *)
Example populated_calls :
  populated.1.1 = Fetched
  ∧ populated.2 = [GET_VOLUME_MIC_CALL; GET_VOLUME_SPEAKERS_CALL]
  ∧ populated.1.2 0 = read_mic_device.
Proof. vm_compute. auto. Qed.

Lemma fetch_volume_effect_witness :
  (AudioDevice.id read_mic_device = AudioDevice.id mic_device
   ∧ AudioDevice.name read_mic_device = AudioDevice.name mic_device
   ∧ AudioDevice.direction read_mic_device = AudioDevice.direction mic_device)
  ∧ ([GET_VOLUME_MIC_CALL] = []
     ∨ [GET_VOLUME_MIC_CALL] = [] ++ [get_volume_call host_half mic_device])
  ∧ (read_mic_device ≠ mic_device →
     [GET_VOLUME_MIC_CALL] = [] ++ [get_volume_call host_half mic_device]
     ∧ ∃ out, spawn host_half (get_volume_call host_half mic_device) = Exited 0 out).
Proof.
  apply (fetch_volume_effect host_half sample_float mic_device read_mic_device
           [] [GET_VOLUME_MIC_CALL] Fetched).
  vm_compute. reflexivity.
Defined.

Lemma fetch_volume_once_witness :
  (AudioDevice.volume read_mic_device ≠ None ∧ AudioDevice.muted read_mic_device ≠ None)
  ∧ fetch_volume host_half sample_float read_mic_device [GET_VOLUME_MIC_CALL] =
    (Fetched, read_mic_device, [GET_VOLUME_MIC_CALL]).
Proof.
  apply (fetch_volume_once host_half sample_float mic_device read_mic_device
           [] [GET_VOLUME_MIC_CALL]).
  vm_compute. reflexivity.
Defined.

Lemma fetch_volume_reads_witness :
  fetch_volume (host_reading "Volume: 0.50") sample_float mic_device [] =
    (Fetched,
     AudioDevice.mk (AudioDevice.id mic_device) (AudioDevice.name mic_device)
       (AudioDevice.direction mic_device) (Some false) (Some HALF),
     [] ++ [get_volume_call (host_reading "Volume: 0.50") mic_device])
  ∧ fetch_volume (host_reading "Volume: 0.50 [MUTED]") sample_float mic_device [] =
    (Fetched,
     AudioDevice.mk (AudioDevice.id mic_device) (AudioDevice.name mic_device)
       (AudioDevice.direction mic_device) (Some true) (Some HALF),
     [] ++ [get_volume_call (host_reading "Volume: 0.50 [MUTED]") mic_device]).
Proof.
  split.
  - refine (proj1 (fetch_volume_reads (host_reading "Volume: 0.50") sample_float
                     mic_device [] "0.50" HALF _ _ _) _); reflexivity.
  - refine (proj2 (fetch_volume_reads (host_reading "Volume: 0.50 [MUTED]")
                     sample_float mic_device [] "0.50" HALF _ _ _) _); reflexivity.
Defined.

Lemma fetch_volume_bad_number_witness :
  fetch_volume (host_reading "Volume: loud") sample_float mic_device [] =
    (FetchRaised (Library ValueError),
     AudioDevice.mk (AudioDevice.id mic_device) (AudioDevice.name mic_device)
       (AudioDevice.direction mic_device) (Some false) (AudioDevice.volume mic_device),
     [] ++ [get_volume_call (host_reading "Volume: loud") mic_device])
  ∧ fetch_volume (host_reading "Volume: loud [MUTED]") sample_float mic_device [] =
    (FetchRaised (Library ValueError),
     AudioDevice.mk (AudioDevice.id mic_device) (AudioDevice.name mic_device)
       (AudioDevice.direction mic_device) (Some true) (AudioDevice.volume mic_device),
     [] ++ [get_volume_call (host_reading "Volume: loud [MUTED]") mic_device]).
Proof.
  split.
  - refine (proj1 (fetch_volume_bad_number (host_reading "Volume: loud") sample_float
                     mic_device [] "loud" _ _ _) _); reflexivity.
  - refine (proj2 (fetch_volume_bad_number (host_reading "Volume: loud [MUTED]")
                     sample_float mic_device [] "loud" _ _ _) _); reflexivity.
Defined.

Lemma fetch_volume_malformed_witness :
  fetch_volume (host_reading MUTED_READING) sample_float mic_device [] =
    (FetchRaised AssertionError, mic_device,
     [] ++ [get_volume_call (host_reading MUTED_READING) mic_device])
  ∧ fetch_volume (host_reading "Volume: 0.40 [MUTED] now") sample_float mic_device [] =
    (FetchRaised (Library ValueError), mic_device,
     [] ++ [get_volume_call (host_reading "Volume: 0.40 [MUTED] now") mic_device]).
Proof.
  split.
  - refine (proj1 (fetch_volume_malformed (host_reading MUTED_READING) sample_float
                     mic_device [] "0.40" ("[MUTED]" +:+ NEWLINE) _ _ _) _ _);
      solve [reflexivity | discriminate].
  - refine (proj2 (fetch_volume_malformed (host_reading "Volume: 0.40 [MUTED] now")
                     sample_float mic_device [] "0.40" "[MUTED]" _ _ _) "now" _);
      reflexivity.
Defined.

Lemma populate_volume_frame_witness :
  (∀ ref, AudioDevice.id (populated.1.2 ref) = AudioDevice.id (sample_objects ref)
          ∧ AudioDevice.name (populated.1.2 ref) = AudioDevice.name (sample_objects ref)
          ∧ AudioDevice.direction (populated.1.2 ref)
            = AudioDevice.direction (sample_objects ref))
  ∧ (∀ ref, ref ∉ [0; 1; 0] → populated.1.2 ref = sample_objects ref)
  ∧ ∃ calls,
      populated.2 = [] ++ calls
      ∧ (List.length calls ≤ List.length [0; 1; 0])%nat
      ∧ Forall (λ call, ∃ ref, ref ∈ [0; 1; 0]
                               ∧ call = get_volume_call host_half (sample_objects ref)) calls.
Proof.
  apply (populate_volume_frame host_half sample_float [0; 1; 0] sample_objects
           populated.1.2 [] populated.2 populated.1.1).
  vm_compute. reflexivity.
Defined.

Lemma populate_volume_complete_witness :
  has_volume (populated.1.2 1) = true.
Proof.
  apply (populate_volume_complete host_half sample_float [0; 1; 0] sample_objects
           populated.1.2 [] populated.2).
  - vm_compute. reflexivity.
  - left. right. left.
Defined.

Lemma populate_volume_nothing_to_do_witness :
  ∃ objects',
    populate_volume host_no_wpctl sample_float [3; 4; 3] sample_objects [] =
      (Fetched, objects', [])
    ∧ ∀ ref, objects' ref = sample_objects ref.
Proof.
  apply (populate_volume_nothing_to_do host_no_wpctl sample_float [3; 4; 3]
           sample_objects []).
  intros ref Hin. repeat (apply elem_of_cons in Hin as [-> | Hin]; [reflexivity|]).
  inversion Hin.
Defined.

(** With only rofi installed and no [--menu], the picker that is run is
    [rofi -dmenu]. *)
Example menu_resolution_runs_rofi :
  main (sample_host (Some two_devices) (Exited 0 "[...]") NotStarted NotStarted
          (fun exe => bool_decide (exe = "rofi"))) None SelectSource [] =
  (Raise OSError, [DUMP_CALL; mkCall ["rofi"; "-dmenu"] (Some "42 Headset Mic")]).
Proof. vm_compute. reflexivity. Qed.
